(** * CloudCompare, libs/qCC_io/FileIOFilter.cpp: the I/O filter registry,
      the load/save entry points and the global-shift negotiation.

    The functions of FileIOFilter.cpp are embedded as Rocq functions over an
    explicit program state (the two file-level statics plus a chronological
    trace of the calls made to collaborators).  Code that lives outside the
    file (the Qt string and file classes, the filters themselves, the global
    shift manager) appears either as a small executable model or as a member
    of the [Collaborators] class. *)

From Stdlib Require Import ZArith NArith Ascii String.
From stdpp Require Import base tactics option list strings.

Local Open Scope Z_scope.

(** ** QString and QStringList (Qt), as far as FileIOFilter.cpp uses them *)

Module QString.

(** QString::isEmpty *)
Definition isEmpty (s : string) : bool :=
  match s with
  | EmptyString => true
  | String _ _ => false
  end.

(** Upper-casing of one character (Latin letters a..z). *)
Definition toUpper_char (c : ascii) : ascii :=
  let n := N_of_ascii c in
  if ((97 <=? n) && (n <=? 122))%N then ascii_of_N (n - 32) else c.

(** QString::toUpper *)
Fixpoint toUpper (s : string) : string :=
  match s with
  | EmptyString => EmptyString
  | String c s' => String (toUpper_char c) (toUpper s')
  end.

(** QString::startsWith(t), case sensitive: [t] is a prefix of [s]. *)
Fixpoint startsWith (s t : string) {struct t} : bool :=
  match t with
  | EmptyString => true
  | String ct t' =>
      match s with
      | EmptyString => false
      | String cs s' => if Ascii.eqb cs ct then startsWith s' t' else false
      end
  end.

(** QString::replace(before, after), case sensitive, for a non-empty
    [before]: every occurrence of [before] is replaced, scanning from the
    left; the inserted text is not scanned again.  [skip] counts the
    characters of a matched occurrence that are still to be dropped. *)
Fixpoint replace_from (skip : nat) (before after s : string) : string :=
  match s with
  | EmptyString => EmptyString
  | String c s' =>
      match skip with
      | S k => replace_from k before after s'
      | O =>
          if startsWith s before
          then after +:+ replace_from (Nat.pred (String.length before)) before after s'
          else String c (replace_from O before after s')
      end
  end.

(** With an empty [before], Qt inserts [after] in front of every character
    and at the end. *)
Fixpoint insert_everywhere (after s : string) : string :=
  match s with
  | EmptyString => after
  | String c s' => after +:+ String c (insert_everywhere after s')
  end.

Definition replace (s before after : string) : string :=
  if isEmpty before then insert_everywhere after s
  else replace_from O before after s.

(** QString::contains(t), case sensitive: [t] occurs somewhere in [s]. *)
Fixpoint contains (s t : string) : bool :=
  startsWith s t ||
  match s with
  | EmptyString => false
  | String _ s' => contains s' t
  end.

End QString.

Module QStringList.

(** QStringList::contains(str), case sensitive. *)
Fixpoint contains (l : list string) (str : string) : bool :=
  match l with
  | [] => false
  | s :: l' => if String.eqb s str then true else contains l' str
  end.

End QStringList.

(** ** Data model *)

(** CC_FILE_ERROR, in the order of the switch of DisplayErrorMessage. *)
Inductive CC_FILE_ERROR : Set :=
| CC_FERR_NO_ERROR
| CC_FERR_BAD_ARGUMENT
| CC_FERR_UNKNOWN_FILE
| CC_FERR_WRONG_FILE_TYPE
| CC_FERR_WRITING
| CC_FERR_READING
| CC_FERR_NO_SAVE
| CC_FERR_NO_LOAD
| CC_FERR_BAD_ENTITY_TYPE
| CC_FERR_CANCELED_BY_USER
| CC_FERR_NOT_ENOUGH_MEMORY
| CC_FERR_MALFORMED_FILE
| CC_FERR_BROKEN_DEPENDENCY_ERROR
| CC_FERR_FILE_WAS_WRITTEN_BY_UNKNOWN_PLUGIN
| CC_FERR_THIRD_PARTY_LIB_FAILURE
| CC_FERR_THIRD_PARTY_LIB_EXCEPTION
| CC_FERR_NOT_IMPLEMENTED
| CC_FERR_CONSOLE_ERROR.

Definition CC_FILE_ERROR_eqb (a b : CC_FILE_ERROR) : bool :=
  match a, b with
  | CC_FERR_NO_ERROR, CC_FERR_NO_ERROR
  | CC_FERR_BAD_ARGUMENT, CC_FERR_BAD_ARGUMENT
  | CC_FERR_UNKNOWN_FILE, CC_FERR_UNKNOWN_FILE
  | CC_FERR_WRONG_FILE_TYPE, CC_FERR_WRONG_FILE_TYPE
  | CC_FERR_WRITING, CC_FERR_WRITING
  | CC_FERR_READING, CC_FERR_READING
  | CC_FERR_NO_SAVE, CC_FERR_NO_SAVE
  | CC_FERR_NO_LOAD, CC_FERR_NO_LOAD
  | CC_FERR_BAD_ENTITY_TYPE, CC_FERR_BAD_ENTITY_TYPE
  | CC_FERR_CANCELED_BY_USER, CC_FERR_CANCELED_BY_USER
  | CC_FERR_NOT_ENOUGH_MEMORY, CC_FERR_NOT_ENOUGH_MEMORY
  | CC_FERR_MALFORMED_FILE, CC_FERR_MALFORMED_FILE
  | CC_FERR_BROKEN_DEPENDENCY_ERROR, CC_FERR_BROKEN_DEPENDENCY_ERROR
  | CC_FERR_FILE_WAS_WRITTEN_BY_UNKNOWN_PLUGIN, CC_FERR_FILE_WAS_WRITTEN_BY_UNKNOWN_PLUGIN
  | CC_FERR_THIRD_PARTY_LIB_FAILURE, CC_FERR_THIRD_PARTY_LIB_FAILURE
  | CC_FERR_THIRD_PARTY_LIB_EXCEPTION, CC_FERR_THIRD_PARTY_LIB_EXCEPTION
  | CC_FERR_NOT_IMPLEMENTED, CC_FERR_NOT_IMPLEMENTED
  | CC_FERR_CONSOLE_ERROR, CC_FERR_CONSOLE_ERROR => true
  | _, _ => false
  end.

(** A C++ double.  The functions below only copy coordinates, they never
    compute with them, so a double is carried as its 64-bit pattern. *)
Definition double : Type := Z.

(** CCVector3d: three doubles. *)
Record CCVector3d : Type := mkCCVector3d { vx : double; vy : double; vz : double }.

(** Modelled from the spec: ccGlobalShiftManager::Mode is declared outside
    FileIOFilter.cpp, which only passes the value on; the spec lists the
    handling modes "none / ask / auto-apply-if-needed". *)
Inductive Mode : Set :=
| MODE_NONE
| MODE_ASK
| MODE_AUTO_APPLY_IF_NEEDED.

(** FileIOFilter::LoadParameters, the members FileIOFilter.cpp reads or
    writes.  The two pointer members are [None] when null and [Some v] when
    they point to a cell holding [v]. *)
Record LoadParameters : Type := mkLoadParameters {
  shiftHandlingMode : Mode;
  coordinatesShiftEnabled : option bool;
  coordinatesShift : option CCVector3d;
  preserveShiftOnSave : bool;
  sessionStart : bool
}.

Definition set_sessionStart (b : bool) (p : LoadParameters) : LoadParameters :=
  {| shiftHandlingMode := shiftHandlingMode p;
     coordinatesShiftEnabled := coordinatesShiftEnabled p;
     coordinatesShift := coordinatesShift p;
     preserveShiftOnSave := preserveShiftOnSave p;
     sessionStart := b |}.

(** FileIOFilter::SaveParameters: FileIOFilter.cpp hands it to the filter
    without reading any member. *)
Record SaveParameters : Type := mkSaveParameters { }.

(** ccHObject: a named node with its children. *)
#[local] Set Warnings "-register-all".
Inductive ccHObject : Type :=
| HObject (name : string) (children : list ccHObject).

Module ccHObject_.

(** [new ccHObject()]: default name, no child. *)
Definition new (defaultName : string) : ccHObject := HObject defaultName [].

Definition getName (o : ccHObject) : string :=
  match o with HObject n _ => n end.

Definition setName (n : string) (o : ccHObject) : ccHObject :=
  match o with HObject _ cs => HObject n cs end.

Definition getChildren (o : ccHObject) : list ccHObject :=
  match o with HObject _ cs => cs end.

Definition getChildrenNumber (o : ccHObject) : nat :=
  length (getChildren o).

Definition removeAllChildren (o : ccHObject) : ccHObject :=
  match o with HObject n _ => HObject n [] end.

Definition setChildren (cs : list ccHObject) (o : ccHObject) : ccHObject :=
  match o with HObject n _ => HObject n cs end.

End ccHObject_.

(** What a call into a filter does: it returns a value or it throws.  The
    two handlers of LoadFromFile distinguish std::exception from the rest. *)
Inductive Exception : Type :=
| std_exception (what : string)
| other_exception.

Inductive Outcome (A : Type) : Type :=
| Returns (a : A)
| Throws (e : Exception).
Arguments Returns {A} a.
Arguments Throws {A} e.

(** A filter object.  [this] is the address the shared pointer holds, the
    only thing [operator==] on two Shared compares.  loadFile receives the
    container and the parameters by reference: it hands both back, also when
    it throws. *)
Record FileIOFilter : Type := mkFileIOFilter {
  this : nat;
  getFileFilters : bool → list string;
  getDefaultExtension : string;
  canLoadExtension : string → bool;
  loadFile : string → ccHObject → LoadParameters →
             Outcome CC_FILE_ERROR * ccHObject * LoadParameters;
  saveToFile : ccHObject → string → SaveParameters → Outcome CC_FILE_ERROR
}.

(** FileIOFilter::Shared, a QSharedPointer: null or a filter. *)
Abbreviation Shared := (option FileIOFilter).

(** FileIOFilter::FilterContainer, a std::vector of Shared.  Register is the
    only writer and never stores a null pointer. *)
Abbreviation FilterContainer := (list FileIOFilter).

Definition Shared_eqb (a b : FileIOFilter) : bool := Nat.eqb (this a) (this b).

(** QFileInfo: what the constructor finds out about a path. *)
Record QFileInfo : Type := mkQFileInfo {
  exists_ : bool;
  fileName : string;
  absolutePath : string;
  baseName : string;
  suffix : string
}.

(** The arguments of ccGlobalShiftManager::Handle as HandleGlobalShift passes
    them.  The shift, the preserve flag and the apply-all flag are in/out
    slots: their value at the call is part of the arguments, their value on
    return part of the result.  The scale slot is passed as nullptr. *)
Record HandleArgs : Type := mkHandleArgs {
  h_P : CCVector3d;
  h_diagonal : double;
  h_mode : Mode;
  h_useInputCoordinatesShiftIfPossible : bool;
  h_coordinatesShift : CCVector3d;
  h_preserveCoordinateShift : bool;
  h_applyAll : bool
}.

Record HandleResult : Type := mkHandleResult {
  r_handled : bool;
  r_coordinatesShift : CCVector3d;
  r_preserveCoordinateShift : bool;
  r_applyAll : bool
}.

(** ** Program state *)

(** What the code does to its collaborators, in the order it does it. *)
Inductive Event : Type :=
| ccLog_Print (msg : string)
| ccLog_Warning (msg : string)
| ccLog_Error (msg : string)
| assert_false
| call_unregister (filter : nat)
| call_loadFile (filter : nat) (filename : string) (parameters : LoadParameters)
| call_saveToFile (filter : nat) (filename : string)
| call_Handle (args : HandleArgs).

(** [unsigned] is 32 bits wide on the platforms CloudCompare builds for. *)
Definition UINT_WIDTH : Z := 32.
Definition UINT_MODULUS : Z := 2 ^ UINT_WIDTH.

Record World : Type := mkWorld {
  s_ioFilters : FilterContainer;
  s_sessionCounter : Z;
  trace : list Event
}.

Definition initial_World : World :=
  {| s_ioFilters := []; s_sessionCounter := 0; trace := [] |}.

(** State passing: a computation maps the state to a result and a state. *)
Definition M (A : Type) : Type := World → A * World.

Definition ret {A} (a : A) : M A := λ w, (a, w).

Definition bind {A B} (m : M A) (k : A → M B) : M B :=
  λ w, let (a, w') := m w in k a w'.

Declare Scope io_scope.
Delimit Scope io_scope with io.
Notation "'call' x <- m ; k" := (bind m (λ x, k))
  (at level 10, x name, m at level 100, k at level 200,
   format "'[v' 'call'  x  <-  m ; '/' k ']'") : io_scope.
Notation "'run' m ; k" := (bind m (λ _, k))
  (at level 10, m at level 100, k at level 200,
   format "'[v' 'run'  m ; '/' k ']'") : io_scope.
Local Open Scope io_scope.

Definition emit (e : Event) : M unit :=
  λ w, (tt, {| s_ioFilters := s_ioFilters w;
               s_sessionCounter := s_sessionCounter w;
               trace := trace w ++ [e] |}).

Definition get_ioFilters : M FilterContainer := λ w, (s_ioFilters w, w).

Definition set_ioFilters (fs : FilterContainer) : M unit :=
  λ w, (tt, {| s_ioFilters := fs;
               s_sessionCounter := s_sessionCounter w;
               trace := trace w |}).

Definition get_sessionCounter : M Z := λ w, (s_sessionCounter w, w).

Definition set_sessionCounter (c : Z) : M unit :=
  λ w, (tt, {| s_ioFilters := s_ioFilters w;
               s_sessionCounter := c;
               trace := trace w |}).

(** ** Collaborators declared outside FileIOFilter.cpp *)

Class Collaborators : Type := mkCollaborators {
  (** sizeof(PointCoordinateType): 4 when coordinates are float, 8 when the
      build uses double *)
  sizeof_PointCoordinateType : Z;
  (** ccGlobalShiftManager::Handle *)
  ccGlobalShiftManager_Handle : HandleArgs → HandleResult;
  (** QFileInfo(path) on the file system of the run *)
  QFileInfo_ : string → QFileInfo;
  (** the name a default-constructed ccHObject carries *)
  ccHObject_defaultName : string
}.

(** ** Session counter *)

(** ResetSesionCounter *)
Definition ResetSesionCounter : M unit :=
  set_sessionCounter 0.

(** IncreaseSesionCounter: [return ++s_sessionCounter;] on an unsigned. *)
Definition IncreaseSesionCounter : M Z :=
  call c <- get_sessionCounter;
  let c' := (c + 1) mod UINT_MODULUS in
  run set_sessionCounter c';
  ret c'.

(** ** Filter registry *)

(** The inner loop of Register: the first of [fileFilters] that
    [otherFilters] contains, if any. *)
Fixpoint Register_first_shared (fileFilters otherFilters : list string) : option string :=
  match fileFilters with
  | [] => None
  | ff :: rest =>
      if QStringList.contains otherFilters ff then Some ff
      else Register_first_shared rest otherFilters
  end.

(** The outer loop of Register over the registered filters; the result tells
    whether the loop left the function ([error] was set). *)
Fixpoint Register_loop (filter : FileIOFilter) (it : list FileIOFilter) : M bool :=
  let fileFilters := getFileFilters filter true in
  let filterName := QString.toUpper (getDefaultExtension filter) in
  match it with
  | [] => ret false
  | other :: it' =>
      if Shared_eqb other filter then
        run emit (ccLog_Warning ("[FileIOFilter::Register] I/O filter '" +:+ filterName
                                 +:+ "' is already registered"));
        ret true
      else
        match Register_first_shared fileFilters (getFileFilters other true) with
        | Some ff =>
            let otherFilterName := QString.toUpper (getDefaultExtension other) in
            run emit (ccLog_Warning ("[FileIOFilter::Register] Internal error: file filter '"
                                     +:+ ff +:+ "' of filter '" +:+ filterName
                                     +:+ "' is already handled by another filter ('"
                                     +:+ otherFilterName +:+ "')!"));
            ret true
        | None => Register_loop filter it'
        end
  end.

(** Register *)
Definition Register (filter : Shared) : M unit :=
  match filter with
  | None =>
      run emit assert_false;
      ret tt
  | Some f =>
      call fs <- get_ioFilters;
      call error <- Register_loop f fs;
      if error then ret tt
      else
        call fs' <- get_ioFilters;
        set_ioFilters (fs' ++ [f])
  end.

(** UnregisterAll *)
Fixpoint UnregisterAll_loop (it : list FileIOFilter) : M unit :=
  match it with
  | [] => ret tt
  | filter :: it' =>
      run emit (call_unregister (this filter));
      UnregisterAll_loop it'
  end.

Definition UnregisterAll : M unit :=
  call fs <- get_ioFilters;
  run UnregisterAll_loop fs;
  set_ioFilters [].

(** GetFilter *)
Fixpoint GetFilter_loop (fileFilter : string) (onImport : bool)
    (it : list FileIOFilter) : Shared :=
  match it with
  | [] => None
  | f :: it' =>
      if QStringList.contains (getFileFilters f onImport) fileFilter then Some f
      else GetFilter_loop fileFilter onImport it'
  end.

Definition GetFilter (fileFilter : string) (onImport : bool) : M Shared :=
  if negb (QString.isEmpty fileFilter) then
    call fs <- get_ioFilters;
    ret (GetFilter_loop fileFilter onImport fs)
  else ret None.

(** GetFilters *)
Definition GetFilters : M FilterContainer := get_ioFilters.

(** FindBestFilterForExtension *)
Fixpoint FindBestFilterForExtension_loop (upperExt : string)
    (it : list FileIOFilter) : Shared :=
  match it with
  | [] => None
  | f :: it' =>
      if canLoadExtension f upperExt then Some f
      else FindBestFilterForExtension_loop upperExt it'
  end.

Definition FindBestFilterForExtension (ext : string) : M Shared :=
  let upperExt := QString.toUpper ext in
  call fs <- get_ioFilters;
  ret (FindBestFilterForExtension_loop upperExt fs).

(** ** Diagnostic messages *)

(** The switch of DisplayErrorMessage: the phrase and the [warning] flag.
    Every enumerator has a case; NO_ERROR returns before any message. *)
Definition DisplayErrorMessage_errorStr (err : CC_FILE_ERROR) : option (string * bool) :=
  match err with
  | CC_FERR_NO_ERROR => None
  | CC_FERR_BAD_ARGUMENT => Some ("bad argument (internal)", false)
  | CC_FERR_UNKNOWN_FILE => Some ("unknown file", false)
  | CC_FERR_WRONG_FILE_TYPE => Some ("wrong file type (check header)", false)
  | CC_FERR_WRITING => Some ("writing error (disk full/no access right?)", false)
  | CC_FERR_READING => Some ("reading error (no access right?)", false)
  | CC_FERR_NO_SAVE => Some ("nothing to save", false)
  | CC_FERR_NO_LOAD => Some ("nothing to load", false)
  | CC_FERR_BAD_ENTITY_TYPE => Some ("incompatible entity/file types", false)
  | CC_FERR_CANCELED_BY_USER => Some ("process canceled by user", true)
  | CC_FERR_NOT_ENOUGH_MEMORY => Some ("not enough memory", false)
  | CC_FERR_MALFORMED_FILE => Some ("malformed file", false)
  | CC_FERR_BROKEN_DEPENDENCY_ERROR => Some ("dependent entities missing (see Console)", false)
  | CC_FERR_FILE_WAS_WRITTEN_BY_UNKNOWN_PLUGIN =>
      Some ("the file was written by a plugin but none of the loaded plugins can deserialize it", false)
  | CC_FERR_THIRD_PARTY_LIB_FAILURE =>
      Some ("the third-party library in charge of saving/loading the file has failed to perform the operation", false)
  | CC_FERR_THIRD_PARTY_LIB_EXCEPTION =>
      Some ("the third-party library in charge of saving/loading the file has thrown an exception", false)
  | CC_FERR_NOT_IMPLEMENTED => Some ("this function is not implemented yet!", false)
  | CC_FERR_CONSOLE_ERROR => Some ("see console", false)
  end.

(** DisplayErrorMessage *)
Definition DisplayErrorMessage (err : CC_FILE_ERROR) (action filename : string) : M unit :=
  match DisplayErrorMessage_errorStr err with
  | None => ret tt
  | Some (errorStr, warning) =>
      let outputString :=
        "An error occurred while " +:+ action +:+ " '" +:+ filename +:+ "': " +:+ errorStr in
      if warning then emit (ccLog_Warning outputString)
      else emit (ccLog_Error outputString)
  end.

(** ** Loading and saving *)

(** What LoadFromFile leaves to its caller: the returned pointer (null is
    [None]), the [result] out-parameter and the parameters it received by
    reference. *)
Record LoadResult : Type := mkLoadResult {
  lr_container : option ccHObject;
  lr_result : CC_FILE_ERROR;
  lr_parameters : LoadParameters
}.

(** What HandleGlobalShift leaves to its caller: the returned bool and the
    three arguments it received by reference. *)
Record ShiftResult : Type := mkShiftResult {
  sr_return : bool;
  sr_Pshift : CCVector3d;
  sr_preserveCoordinateShift : bool;
  sr_parameters : LoadParameters
}.

Section Orchestrator.

Context `{Collaborators}.

(** The loop of LoadFromFile over the children: a child whose name starts
    with "unnamed" has the occurrences of "unnamed" in its name replaced
    by the base name. *)
Definition LoadFromFile_rename_child (fi : QFileInfo) (child : ccHObject) : ccHObject :=
  let newName := ccHObject_.getName child in
  if QString.startsWith newName "unnamed" then
    ccHObject_.setName (QString.replace newName "unnamed" (baseName fi)) child
  else child.

(** The try block of LoadFromFile with its two handlers: the result code
    and the container and parameters as the filter left them. *)
Definition LoadFromFile_try (filename : string) (loadParameters : LoadParameters)
    (filter : FileIOFilter) (container : ccHObject)
    : M (CC_FILE_ERROR * ccHObject * LoadParameters) :=
  run emit (call_loadFile (this filter) filename loadParameters);
  match loadFile filter filename container loadParameters with
  | (Returns result, container', loadParameters') =>
      ret (result, container', loadParameters')
  | (Throws (std_exception what), container', loadParameters') =>
      run emit (ccLog_Warning ("[I/O] CC has caught an exception while loading file '"
                               +:+ filename +:+ "'"));
      run emit (ccLog_Warning ("[I/O] Exception: " +:+ what));
      ret (CC_FERR_CONSOLE_ERROR, ccHObject_.removeAllChildren container', loadParameters')
  | (Throws other_exception, container', loadParameters') =>
      run emit (ccLog_Warning ("[I/O] CC has caught an unhandled exception while loading file '"
                               +:+ filename +:+ "'"));
      ret (CC_FERR_CONSOLE_ERROR, ccHObject_.removeAllChildren container', loadParameters')
  end.

(** The message after the try block of LoadFromFile. *)
Definition LoadFromFile_report (filename : string) (fi : QFileInfo)
    (result : CC_FILE_ERROR) : M unit :=
  if CC_FILE_ERROR_eqb result CC_FERR_NO_ERROR then
    emit (ccLog_Print ("[I/O] File '" +:+ filename +:+ "' loaded successfully"))
  else DisplayErrorMessage result "loading" (baseName fi).

(** The end of LoadFromFile: a container with children is renamed, and so
    are its children; a container without children is deleted. *)
Definition LoadFromFile_finish (fi : QFileInfo) (container : ccHObject)
    : option ccHObject :=
  let childCount := ccHObject_.getChildrenNumber container in
  if negb (Nat.eqb childCount 0) then
    (* we set the main container name as the full filename (with path) *)
    let container :=
      ccHObject_.setName (fileName fi +:+ " (" +:+ absolutePath fi +:+ ")") container in
    let container :=
      ccHObject_.setChildren
        (map (LoadFromFile_rename_child fi) (ccHObject_.getChildren container))
        container in
    Some container
  else
    None.

(** LoadFromFile(filename, loadParameters, filter, result) *)
Definition LoadFromFile (filename : string) (loadParameters : LoadParameters)
    (filter : Shared) : M LoadResult :=
  match filter with
  | None =>
      run emit (ccLog_Error "[Load] Internal error (invalid input filter)");
      run emit assert_false;
      ret (mkLoadResult None CC_FERR_CONSOLE_ERROR loadParameters)
  | Some f =>
      (* check file existence *)
      let fi := QFileInfo_ filename in
      if negb (exists_ fi) then
        run emit (ccLog_Error ("[Load] File '" +:+ filename +:+ "' doesn't exist!"));
        ret (mkLoadResult None CC_FERR_CONSOLE_ERROR loadParameters)
      else
        (* load file *)
        let container := ccHObject_.new ccHObject_defaultName in
        (* we start a new 'action' inside the current sessions *)
        call sessionCounter <- IncreaseSesionCounter;
        let loadParameters := set_sessionStart (sessionCounter =? 1) loadParameters in
        call r <- LoadFromFile_try filename loadParameters f container;
        let '(result, container, loadParameters) := r in
        run LoadFromFile_report filename fi result;
        ret (mkLoadResult (LoadFromFile_finish fi container) result loadParameters)
  end.

(** LoadFromFile(filename, loadParameters, result, fileFilter) *)
Definition LoadFromFile_by_name (filename : string) (loadParameters : LoadParameters)
    (fileFilter : string) : M LoadResult :=
  if negb (QString.isEmpty fileFilter) then
    (* the right filter is specified by the caller *)
    call filter <- GetFilter fileFilter true;
    match filter with
    | None =>
        run emit (ccLog_Error ("[Load] Internal error: no I/O filter corresponds to filter '"
                               +:+ fileFilter +:+ "'"));
        ret (mkLoadResult None CC_FERR_CONSOLE_ERROR loadParameters)
    | Some _ => LoadFromFile filename loadParameters filter
    end
  else
    (* we need to guess the I/O filter based on the file format *)
    let extension := suffix (QFileInfo_ filename) in
    if QString.isEmpty extension then
      run emit (ccLog_Error "[Load] Can't guess file format: no file extension");
      ret (mkLoadResult None CC_FERR_CONSOLE_ERROR loadParameters)
    else
      call filter <- FindBestFilterForExtension extension;
      match filter with
      | None =>
          run emit (ccLog_Error ("[Load] Can't guess file format: unhandled file extension '"
                                 +:+ extension +:+ "'"));
          ret (mkLoadResult None CC_FERR_CONSOLE_ERROR loadParameters)
      | Some _ => LoadFromFile filename loadParameters filter
      end.

(** The name SaveToFile writes to: if the file name has no extension, the
    default one of the filter is added. *)
Definition SaveToFile_completeFileName (filename : string) (f : FileIOFilter) : string :=
  if QString.isEmpty (suffix (QFileInfo_ filename))
  then filename +:+ "." +:+ getDefaultExtension f
  else filename.

(** The try block of SaveToFile with its handler. *)
Definition SaveToFile_try (entities : ccHObject) (filename completeFileName : string)
    (parameters : SaveParameters) (f : FileIOFilter) : M CC_FILE_ERROR :=
  run emit (call_saveToFile (this f) completeFileName);
  match saveToFile f entities completeFileName parameters with
  | Returns result => ret result
  | Throws _ =>
      run emit (ccLog_Warning
                  ("[I/O] CC has caught an unhandled exception while saving file '"
                   +:+ filename +:+ "'"));
      ret CC_FERR_CONSOLE_ERROR
  end.

(** The message after the try block of SaveToFile. *)
Definition SaveToFile_report (filename : string) (result : CC_FILE_ERROR) : M unit :=
  if CC_FILE_ERROR_eqb result CC_FERR_NO_ERROR then
    emit (ccLog_Print ("[I/O] File '" +:+ filename +:+ "' saved successfully"))
  else DisplayErrorMessage result "saving" filename.

(** SaveToFile(entities, filename, parameters, filter) *)
Definition SaveToFile (entities : option ccHObject) (filename : string)
    (parameters : SaveParameters) (filter : Shared) : M CC_FILE_ERROR :=
  match entities, filter with
  | Some ents, Some f =>
      if QString.isEmpty filename then ret CC_FERR_BAD_ARGUMENT
      else
        let completeFileName := SaveToFile_completeFileName filename f in
        call result <- SaveToFile_try ents filename completeFileName parameters f;
        run SaveToFile_report filename result;
        ret result
  | _, _ => ret CC_FERR_BAD_ARGUMENT
  end.

(** SaveToFile(entities, filename, parameters, fileFilter) *)
Definition SaveToFile_by_name (entities : option ccHObject) (filename : string)
    (parameters : SaveParameters) (fileFilter : string) : M CC_FILE_ERROR :=
  if QString.isEmpty fileFilter then ret CC_FERR_BAD_ARGUMENT
  else
    call filter <- GetFilter fileFilter false;
    match filter with
    | None =>
        run emit (ccLog_Error ("[Load] Internal error: no filter corresponds to filter '"
                               +:+ fileFilter +:+ "'"));
        ret CC_FERR_UNKNOWN_FILE
    | Some _ => SaveToFile entities filename parameters filter
    end.

(** ** Global shift *)

(** [loadParameters.coordinatesShiftEnabled && *loadParameters.coordinatesShiftEnabled
     && loadParameters.coordinatesShift] *)
Definition shiftAlreadyEnabled (loadParameters : LoadParameters) : bool :=
  match coordinatesShiftEnabled loadParameters, coordinatesShift loadParameters with
  | Some true, Some _ => true
  | _, _ => false
  end.

(** The first statements of HandleGlobalShift: what [Pshift] and
    [preserveCoordinateShift] hold when ccGlobalShiftManager::Handle is
    reached. *)
Definition HandleGlobalShift_Pshift (Pshift : CCVector3d)
    (loadParameters : LoadParameters) : CCVector3d :=
  match shiftAlreadyEnabled loadParameters, coordinatesShift loadParameters with
  | true, Some stored => stored
  | _, _ => Pshift
  end.

Definition HandleGlobalShift_preserve (preserveCoordinateShift : bool)
    (loadParameters : LoadParameters) : bool :=
  if shiftAlreadyEnabled loadParameters then preserveShiftOnSave loadParameters
  else preserveCoordinateShift.

(** The argument list of the call to ccGlobalShiftManager::Handle. *)
Definition HandleGlobalShift_args (P : CCVector3d) (Pshift : CCVector3d)
    (preserveCoordinateShift : bool) (loadParameters : LoadParameters)
    (useInputCoordinatesShiftIfPossible : bool) : HandleArgs :=
  {| h_P := P;
     h_diagonal := 0;
     h_mode := shiftHandlingMode loadParameters;
     h_useInputCoordinatesShiftIfPossible :=
       shiftAlreadyEnabled loadParameters || useInputCoordinatesShiftIfPossible;
     h_coordinatesShift := HandleGlobalShift_Pshift Pshift loadParameters;
     h_preserveCoordinateShift :=
       HandleGlobalShift_preserve preserveCoordinateShift loadParameters;
     h_applyAll := false |}.

(** The body of the [if] of HandleGlobalShift: "we save coordinates shift
    information". *)
Definition HandleGlobalShift_save (applyAll : bool) (Pshift : CCVector3d)
    (preserveCoordinateShift : bool) (loadParameters : LoadParameters) : LoadParameters :=
  match applyAll, coordinatesShiftEnabled loadParameters,
        coordinatesShift loadParameters with
  | true, Some _, Some _ =>
      {| shiftHandlingMode := shiftHandlingMode loadParameters;
         coordinatesShiftEnabled := Some true;
         coordinatesShift := Some Pshift;
         preserveShiftOnSave := preserveCoordinateShift;
         sessionStart := sessionStart loadParameters |}
  | _, _, _ => loadParameters
  end.

(** HandleGlobalShift.  [Pshift] and [preserveCoordinateShift] are what the
    caller's variables hold at the call. *)
Definition HandleGlobalShift (P : CCVector3d) (Pshift : CCVector3d)
    (preserveCoordinateShift : bool) (loadParameters : LoadParameters)
    (useInputCoordinatesShiftIfPossible : bool) : M ShiftResult :=
  let args :=
    HandleGlobalShift_args P Pshift preserveCoordinateShift loadParameters
      useInputCoordinatesShiftIfPossible in
  if sizeof_PointCoordinateType <? 8 then
    run emit (call_Handle args);
    let r := ccGlobalShiftManager_Handle args in
    let Pshift := r_coordinatesShift r in
    let preserveCoordinateShift := r_preserveCoordinateShift r in
    let applyAll := r_applyAll r in
    if r_handled r then
      let loadParameters :=
        HandleGlobalShift_save applyAll Pshift preserveCoordinateShift loadParameters in
      ret (mkShiftResult true Pshift preserveCoordinateShift loadParameters)
    else
      ret (mkShiftResult false Pshift preserveCoordinateShift loadParameters)
  else
    ret (mkShiftResult false
           (HandleGlobalShift_Pshift Pshift loadParameters)
           (HandleGlobalShift_preserve preserveCoordinateShift loadParameters)
           loadParameters).

End Orchestrator.

(** ** Observations on traces *)

(** The calls to a filter's loadFile recorded in a trace, in order: the
    filter, the file name and the parameters the filter received. *)
Definition loadFile_calls (tr : list Event) : list (nat * string * LoadParameters) :=
  omap (λ e, match e with
             | call_loadFile f n p => Some (f, n, p)
             | _ => None
             end) tr.

(** The calls to ccGlobalShiftManager::Handle recorded in a trace. *)
Definition Handle_calls (tr : list Event) : list HandleArgs :=
  omap (λ e, match e with
             | call_Handle a => Some a
             | _ => None
             end) tr.

(** ** Registry properties *)

(** The import file filters of a filter. *)
Definition importFilters (f : FileIOFilter) : list string := getFileFilters f true.

(** The three reasons for which a registration is turned down: a null
    filter, a filter already registered (same address), a filter sharing an
    import file filter with a registered one. *)
Definition Register_refused (reg : FilterContainer) (filter : Shared) : Prop :=
  match filter with
  | None => True
  | Some f =>
      (∃ g, g ∈ reg ∧ this g = this f) ∨
      (∃ g s, g ∈ reg ∧ s ∈ importFilters f ∧ s ∈ importFilters g)
  end.

(** [g], already registered, stands in the way of [f]. *)
Definition collides (f g : FileIOFilter) : Prop :=
  this g = this f ∨ ∃ s, s ∈ importFilters f ∧ s ∈ importFilters g.

(** No filter is registered twice and no two registered filters share an
    import file filter. *)
Definition registry_unique (reg : FilterContainer) : Prop :=
  NoDup (this <$> reg) ∧
  ∀ i j f g s, reg !! i = Some f → reg !! j = Some g → i ≠ j →
               s ∈ importFilters f → s ∉ importFilters g.

(** ** Sessions *)

(** One call of LoadFromFile with a filter. *)
Record LoadRequest : Type := mkLoadRequest {
  rq_filename : string;
  rq_parameters : LoadParameters;
  rq_filter : FileIOFilter
}.

Section Sessions.

Context `{Collaborators}.

(** What a load with valid input hands to the filter: the parameters of
    the caller with the session flag set from the incremented counter. *)
Definition parameters_for_filter (w : World) (loadParameters : LoadParameters)
    : LoadParameters :=
  set_sessionStart ((s_sessionCounter w + 1) mod UINT_MODULUS =? 1) loadParameters.

(** What the filter does in a load with valid input started in state [w]:
    it is called on a fresh container with those parameters. *)
Definition filter_outcome (w : World) (filename : string)
    (loadParameters : LoadParameters) (f : FileIOFilter)
    : Outcome CC_FILE_ERROR * ccHObject * LoadParameters :=
  loadFile f filename (ccHObject_.new ccHObject_defaultName)
    (parameters_for_filter w loadParameters).

(** The input is valid: LoadFromFile reaches the filter. *)
Definition valid_request (rq : LoadRequest) : Prop :=
  exists_ (QFileInfo_ (rq_filename rq)) = true.

Definition load (rq : LoadRequest) : M LoadResult :=
  LoadFromFile (rq_filename rq) (rq_parameters rq) (Some (rq_filter rq)).

(** The state after the loads number 0 .. n-1 of a sequence of requests. *)
Definition after_loads (reqs : N → LoadRequest) (w : World) (n : N) : World :=
  N.peano_rect (λ _, World) w (λ k wk, snd (load (reqs k) wk)) n.

(** The value of sessionStart the filter receives in load number n of the
    sequence (counting from 0), read off the trace of that load. *)
Definition sessionStart_of_load (reqs : N → LoadRequest) (w : World) (n : N)
    : option bool :=
  let wn := after_loads reqs w n in
  let tr := trace (snd (load (reqs n) wn)) in
  (λ c, sessionStart c.2) <$> last (drop (length (loadFile_calls (trace wn))) (loadFile_calls tr)).

End Sessions.

(** ** The reading of two sentences of the specification, for comparison *)

(** "for every immediate child whose name begins with the literal token
    unnamed, that token is replaced by the file's base name": only the
    leading token is exchanged, the rest of the name stays. *)
Definition spec_child_name (base name : string) : string :=
  if QString.startsWith name "unnamed"
  then base +:+ String.substring 7 (String.length name - 7) name
  else name.

(** "the first load sets sessionStart to true, every subsequent load in the
    same session sets it to false". *)
Definition spec_sessionStart (n : N) : bool := (n =? 0)%N.

(** ** Concrete filters, files and collaborators used in the examples *)

Module Fixtures.

Definition add_children (cs : list ccHObject) (container : ccHObject) : ccHObject :=
  ccHObject_.setChildren (ccHObject_.getChildren container ++ cs) container.

Definition leaf (n : string) : ccHObject := HObject n [].

Definition loads (cs : list ccHObject) (code : CC_FILE_ERROR)
    : string → ccHObject → LoadParameters →
      Outcome CC_FILE_ERROR * ccHObject * LoadParameters :=
  λ _ container parameters, (Returns code, add_children cs container, parameters).

Definition saves (code : CC_FILE_ERROR)
    : ccHObject → string → SaveParameters → Outcome CC_FILE_ERROR :=
  λ _ _ _, Returns code.

Definition handles (exts : list string) : string → bool :=
  λ upperExt, QStringList.contains exts upperExt.

Definition binFilter : FileIOFilter :=
  {| this := 1;
     getFileFilters := λ _, ["CloudCompare entities (*.bin)"];
     getDefaultExtension := "bin";
     canLoadExtension := handles ["BIN"];
     loadFile := loads [leaf "unnamed - Cloud"] CC_FERR_NO_ERROR;
     saveToFile := saves CC_FERR_NO_ERROR |}.

Definition asciiFilter : FileIOFilter :=
  {| this := 2;
     getFileFilters := λ _, ["ASCII cloud (*.txt *.asc *.neu *.xyz *.pts *.csv)"];
     getDefaultExtension := "asc";
     canLoadExtension := handles ["TXT"; "ASC"; "NEU"; "XYZ"; "PTS"; "CSV"];
     loadFile := loads [leaf "unnamed"; leaf "unnamed_cloud"] CC_FERR_NO_ERROR;
     saveToFile := saves CC_FERR_NO_ERROR |}.

(** a second filter for the extension xyz, with file filters of its own *)
Definition xyzFilter : FileIOFilter :=
  {| this := 3;
     getFileFilters := λ _, ["XYZ cloud (*.xyz)"];
     getDefaultExtension := "xyz";
     canLoadExtension := handles ["XYZ"];
     loadFile := loads [leaf "points"] CC_FERR_NO_ERROR;
     saveToFile := saves CC_FERR_NO_ERROR |}.

(** another object claiming the import file filter of asciiFilter *)
Definition asciiRival : FileIOFilter :=
  {| this := 4;
     getFileFilters := λ onImport,
       if onImport
       then ["Text (*.txt)"; "ASCII cloud (*.txt *.asc *.neu *.xyz *.pts *.csv)"]
       else ["Text (*.txt)"];
     getDefaultExtension := "txt";
     canLoadExtension := handles ["TXT"];
     loadFile := loads [leaf "text"] CC_FERR_NO_ERROR;
     saveToFile := saves CC_FERR_NO_ERROR |}.

(** a filter that adds a child and then throws; its save throws as well *)
Definition throwingFilter : FileIOFilter :=
  {| this := 5;
     getFileFilters := λ _, ["Broken (*.brk)"];
     getDefaultExtension := "brk";
     canLoadExtension := handles ["BRK"];
     loadFile := λ _ container parameters,
       (Throws (std_exception "std::bad_alloc"),
        add_children [leaf "unnamed"] container, parameters);
     saveToFile := λ _ _ _, Throws other_exception |}.

(** a filter that succeeds and loads nothing *)
Definition emptyFilter : FileIOFilter :=
  {| this := 6;
     getFileFilters := λ _, ["Empty (*.nil)"];
     getDefaultExtension := "nil";
     canLoadExtension := handles ["NIL"];
     loadFile := loads [] CC_FERR_NO_ERROR;
     saveToFile := saves CC_FERR_NO_ERROR |}.

(** a filter whose entity carries the placeholder twice in its name *)
Definition meshFilter : FileIOFilter :=
  {| this := 7;
     getFileFilters := λ _, ["Mesh (*.msh)"];
     getDefaultExtension := "msh";
     canLoadExtension := handles ["MSH"];
     loadFile := loads [leaf "unnamed.vertices (unnamed)"] CC_FERR_NO_ERROR;
     saveToFile := saves CC_FERR_NO_ERROR |}.

(** the files of the examples *)
Definition files (path : string) : QFileInfo :=
  if String.eqb path "/data/scan.asc" then
    {| exists_ := true; fileName := "scan.asc"; absolutePath := "/data";
       baseName := "scan"; suffix := "asc" |}
  else if String.eqb path "/data/tile.xyz" then
    {| exists_ := true; fileName := "tile.xyz"; absolutePath := "/data";
       baseName := "tile"; suffix := "xyz" |}
  else if String.eqb path "/data/missing.asc" then
    {| exists_ := false; fileName := "missing.asc"; absolutePath := "/data";
       baseName := "missing"; suffix := "asc" |}
  else if String.eqb path "/data/out" then
    {| exists_ := false; fileName := "out"; absolutePath := "/data";
       baseName := "out"; suffix := "" |}
  else
    {| exists_ := false; fileName := path; absolutePath := "";
       baseName := path; suffix := "" |}.

(** a decision procedure that takes the offered shift when asked to and
    otherwise centres on the point, for all the entities to come *)
Definition Handle_reusing (a : HandleArgs) : HandleResult :=
  if h_useInputCoordinatesShiftIfPossible a then
    {| r_handled := true;
       r_coordinatesShift := h_coordinatesShift a;
       r_preserveCoordinateShift := h_preserveCoordinateShift a;
       r_applyAll := false |}
  else
    {| r_handled := true;
       r_coordinatesShift := h_P a;
       r_preserveCoordinateShift := true;
       r_applyAll := true |}.

(** a decision procedure that centres on the point it is shown whatever
    shift it is offered (the user types a new shift in the dialog) *)
Definition Handle_recentring (a : HandleArgs) : HandleResult :=
  {| r_handled := true;
     r_coordinatesShift := h_P a;
     r_preserveCoordinateShift := negb (h_preserveCoordinateShift a);
     r_applyAll := true |}.

(** coordinates are float, Handle reuses *)
Definition float_build : Collaborators :=
  {| sizeof_PointCoordinateType := 4;
     ccGlobalShiftManager_Handle := Handle_reusing;
     QFileInfo_ := files;
     ccHObject_defaultName := "unnamed" |}.

(** coordinates are float, Handle recentres *)
Definition float_build_recentring : Collaborators :=
  {| sizeof_PointCoordinateType := 4;
     ccGlobalShiftManager_Handle := Handle_recentring;
     QFileInfo_ := files;
     ccHObject_defaultName := "unnamed" |}.

(** coordinates are double *)
Definition double_build : Collaborators :=
  {| sizeof_PointCoordinateType := 8;
     ccGlobalShiftManager_Handle := Handle_recentring;
     QFileInfo_ := files;
     ccHObject_defaultName := "unnamed" |}.

Definition P1 : CCVector3d := mkCCVector3d 1000 2000 3000.
Definition P2 : CCVector3d := mkCCVector3d 7000 8000 9000.
Definition zero : CCVector3d := mkCCVector3d 0 0 0.

(** parameters of a caller that owns both cells, no shift chosen yet *)
Definition fresh_parameters : LoadParameters :=
  {| shiftHandlingMode := MODE_ASK;
     coordinatesShiftEnabled := Some false;
     coordinatesShift := Some zero;
     preserveShiftOnSave := false;
     sessionStart := false |}.

(** parameters of a session in which the shift P1 is active *)
Definition shifted_parameters : LoadParameters :=
  {| shiftHandlingMode := MODE_ASK;
     coordinatesShiftEnabled := Some true;
     coordinatesShift := Some P1;
     preserveShiftOnSave := true;
     sessionStart := false |}.

(** parameters of a caller that set no cell for the shift vector *)
Definition slotless_parameters : LoadParameters :=
  {| shiftHandlingMode := MODE_ASK;
     coordinatesShiftEnabled := Some false;
     coordinatesShift := None;
     preserveShiftOnSave := false;
     sessionStart := false |}.

(** the registry after InitInternalFilters-like registrations *)
Definition two_filters : World :=
  {| s_ioFilters := [binFilter; asciiFilter]; s_sessionCounter := 0; trace := [] |}.

Definition three_filters : World :=
  {| s_ioFilters := [binFilter; asciiFilter; xyzFilter]; s_sessionCounter := 0; trace := [] |}.

End Fixtures.

(** ** The rest of FileIOFilter.cpp *)

(** InitInternalFilters.  The filter classes are defined in other files:
    the eight objects the function creates are given, and so are the three
    build options that guard a registration. *)
Record InternalFilters : Type := mkInternalFilters {
  new_BinFilter : FileIOFilter;
  new_AsciiFilter : FileIOFilter;
  new_PlyFilter : FileIOFilter;
  CC_DXF_SUPPORT : bool;
  new_DxfFilter : FileIOFilter;
  CC_SHP_SUPPORT : bool;
  new_ShpFilter : FileIOFilter;
  CC_GDAL_SUPPORT : bool;
  new_RasterGridFilter : FileIOFilter;
  new_ImageFileFilter : FileIOFilter;
  new_DepthMapFileFilter : FileIOFilter
}.

Definition InitInternalFilters (b : InternalFilters) : M unit :=
  (* from the most useful to the less one! *)
  run Register (Some (new_BinFilter b));
  run Register (Some (new_AsciiFilter b));
  run Register (Some (new_PlyFilter b));
  run (if CC_DXF_SUPPORT b then Register (Some (new_DxfFilter b)) else ret tt);
  run (if CC_SHP_SUPPORT b then Register (Some (new_ShpFilter b)) else ret tt);
  run (if CC_GDAL_SUPPORT b then Register (Some (new_RasterGridFilter b)) else ret tt);
  run Register (Some (new_ImageFileFilter b));
  Register (Some (new_DepthMapFileFilter b)).

(** The filters InitInternalFilters passes to Register, in the order of the
    calls. *)
Definition internal_filters (b : InternalFilters) : list FileIOFilter :=
  [new_BinFilter b; new_AsciiFilter b; new_PlyFilter b]
  ++ (if CC_DXF_SUPPORT b then [new_DxfFilter b] else [])
  ++ (if CC_SHP_SUPPORT b then [new_ShpFilter b] else [])
  ++ (if CC_GDAL_SUPPORT b then [new_RasterGridFilter b] else [])
  ++ [new_ImageFileFilter b; new_DepthMapFileFilter b].

(** Calls of Register one after the other. *)
Fixpoint Register_all (filters : list Shared) : M unit :=
  match filters with
  | [] => ret tt
  | filter :: rest =>
      run Register filter;
      Register_all rest
  end.

(** A call that writes to the registry. *)
Inductive RegistryCall : Type :=
| do_Register (filter : Shared)
| do_UnregisterAll.

Definition registry_call (c : RegistryCall) : M unit :=
  match c with
  | do_Register filter => Register filter
  | do_UnregisterAll => UnregisterAll
  end.

Fixpoint registry_calls (cs : list RegistryCall) : M unit :=
  match cs with
  | [] => ret tt
  | c :: rest =>
      run registry_call c;
      registry_calls rest
  end.

(** A decision procedure for [registry_unique] on a given list: the
    addresses are pairwise distinct and no filter shares an import file
    filter with a later one. *)
Definition shares_import (f g : FileIOFilter) : bool :=
  existsb (QStringList.contains (importFilters g)) (importFilters f).

Fixpoint registry_uniqueb (reg : list FileIOFilter) : bool :=
  match reg with
  | [] => true
  | f :: rest =>
      forallb (λ g, negb (Nat.eqb (this g) (this f)) && negb (shares_import f g)
                    && negb (shares_import g f)) rest
      && registry_uniqueb rest
  end.

(** One call of LoadFromFile, the filter possibly null. *)
Record LoadCall : Type := mkLoadCall {
  lc_filename : string;
  lc_parameters : LoadParameters;
  lc_filter : Shared
}.

Section LoadCalls.

Context `{Collaborators}.

(** The input of the call passes the two checks of LoadFromFile. *)
Definition lc_valid (c : LoadCall) : bool :=
  match lc_filter c with
  | Some _ => exists_ (QFileInfo_ (lc_filename c))
  | None => false
  end.

(** Calls of LoadFromFile one after the other, with their results. *)
Fixpoint LoadFromFile_all (cs : list LoadCall) : M (list LoadResult) :=
  match cs with
  | [] => ret []
  | c :: rest =>
      call r <- LoadFromFile (lc_filename c) (lc_parameters c) (lc_filter c);
      call rs <- LoadFromFile_all rest;
      ret (r :: rs)
  end.

(** The line LoadFromFile writes to the log once the filter has returned
    with [result]. *)
Definition load_report_line (filename : string) (result : CC_FILE_ERROR) : Event :=
  let failed phrase :=
    "An error occurred while loading '" +:+ baseName (QFileInfo_ filename)
    +:+ "': " +:+ phrase in
  match DisplayErrorMessage_errorStr result with
  | None => ccLog_Print ("[I/O] File '" +:+ filename +:+ "' loaded successfully")
  | Some (phrase, true) => ccLog_Warning (failed phrase)
  | Some (phrase, false) => ccLog_Error (failed phrase)
  end.

End LoadCalls.

(** The severity of a line of the log, if the event is one. *)
Inductive Severity : Set := severity_print | severity_warning | severity_error.

Definition log_line (e : Event) : option (Severity * string) :=
  match e with
  | ccLog_Print msg => Some (severity_print, msg)
  | ccLog_Warning msg => Some (severity_warning, msg)
  | ccLog_Error msg => Some (severity_error, msg)
  | _ => None
  end.

(** More filters and a build for the examples. *)
Module MoreFixtures.

Import Fixtures.

Definition plyFilter : FileIOFilter :=
  {| this := 8;
     getFileFilters := λ _, ["PLY mesh (*.ply)"];
     getDefaultExtension := "ply";
     canLoadExtension := handles ["PLY"];
     loadFile := loads [leaf "mesh"] CC_FERR_NO_ERROR;
     saveToFile := saves CC_FERR_NO_ERROR |}.

Definition imageFilter : FileIOFilter :=
  {| this := 9;
     getFileFilters := λ onImport, if onImport then ["Image (*.png *.jpg)"] else ["Image (*.png)"];
     getDefaultExtension := "png";
     canLoadExtension := handles ["PNG"; "JPG"];
     loadFile := loads [leaf "image"] CC_FERR_NO_ERROR;
     saveToFile := saves CC_FERR_NO_ERROR |}.

Definition depthMapFilter : FileIOFilter :=
  {| this := 10;
     getFileFilters := λ onImport, if onImport then [] else ["Depth Map [ascii] (*.txt *.asc)"];
     getDefaultExtension := "txt";
     canLoadExtension := handles [];
     loadFile := loads [] CC_FERR_NO_LOAD;
     saveToFile := saves CC_FERR_NO_ERROR |}.

(** a filter that fails with a code after it has added an entity *)
Definition failingFilter : FileIOFilter :=
  {| this := 11;
     getFileFilters := λ _, ["Partial (*.prt)"];
     getDefaultExtension := "prt";
     canLoadExtension := handles ["PRT"];
     loadFile := loads [leaf "unnamed - half"] CC_FERR_MALFORMED_FILE;
     saveToFile := saves CC_FERR_WRITING |}.

(** a build without DXF, SHP and GDAL support *)
Definition plain_build : InternalFilters :=
  {| new_BinFilter := binFilter;
     new_AsciiFilter := asciiFilter;
     new_PlyFilter := plyFilter;
     CC_DXF_SUPPORT := false;
     new_DxfFilter := xyzFilter;
     CC_SHP_SUPPORT := false;
     new_ShpFilter := emptyFilter;
     CC_GDAL_SUPPORT := false;
     new_RasterGridFilter := meshFilter;
     new_ImageFileFilter := imageFilter;
     new_DepthMapFileFilter := depthMapFilter |}.

(** a decision procedure that declines *)
Definition Handle_declining (a : HandleArgs) : HandleResult :=
  {| r_handled := false;
     r_coordinatesShift := mkCCVector3d 0 0 0;
     r_preserveCoordinateShift := false;
     r_applyAll := true |}.

Definition float_build_declining : Collaborators :=
  {| sizeof_PointCoordinateType := 4;
     ccGlobalShiftManager_Handle := Handle_declining;
     QFileInfo_ := files;
     ccHObject_defaultName := "unnamed" |}.

End MoreFixtures.

(** * Properties *)

(** ** Strings and string lists *)

Lemma contains_elem_of (l : list string) (s : string) :
  QStringList.contains l s = true ↔ s ∈ l.
Proof.
  induction l as [|x l IH]; simpl.
  - split; [discriminate | by intros ?%elem_of_nil].
  - rewrite elem_of_cons. destruct (String.eqb_spec x s) as [->|Hne].
    + by split; [left|].
    + rewrite IH. split; [by right | intros [?|?]; congruence].
Qed.

Lemma contains_false (l : list string) (s : string) :
  QStringList.contains l s = false ↔ s ∉ l.
Proof.
  rewrite <- contains_elem_of. destruct (QStringList.contains l s); naive_solver.
Qed.

Lemma startsWith_app (t rest : string) : QString.startsWith (t +:+ rest) t = true.
Proof.
  induction t as [|c t IH]; [done|].
  change (String c t +:+ rest) with (String c (t +:+ rest)).
  cbn [QString.startsWith]. by rewrite Ascii.eqb_refl.
Qed.

Lemma startsWith_inv (s t : string) :
  QString.startsWith s t = true → ∃ rest, s = t +:+ rest.
Proof.
  revert s. induction t as [|c t IH]; intros s; cbn [QString.startsWith].
  - by exists s.
  - destruct s as [|d s]; [discriminate|].
    destruct (Ascii.eqb_spec d c) as [->|]; [|discriminate].
    intros [rest ->]%IH. by exists rest.
Qed.

(** Once an occurrence is matched, its remaining characters are dropped and
    the scan goes on behind it. *)
Lemma replace_from_skip (t before after rest : string) :
  QString.replace_from (String.length t) before after (t +:+ rest)
  = QString.replace_from O before after rest.
Proof.
  induction t as [|c t IH]; [done|].
  change (String c t +:+ rest) with (String c (t +:+ rest)).
  cbn [String.length QString.replace_from]. apply IH.
Qed.

Lemma replace_leading (before after rest : string) :
  QString.isEmpty before = false →
  QString.replace (before +:+ rest) before after
  = after +:+ QString.replace rest before after.
Proof.
  unfold QString.replace. intros Hne.
  destruct before as [|c before]; [discriminate|]. cbn [QString.isEmpty].
  change (String c before +:+ rest) with (String c (before +:+ rest)).
  cbn [QString.replace_from].
  change (String c (before +:+ rest)) with (String c before +:+ rest).
  rewrite startsWith_app. cbn [String.length Nat.pred].
  by rewrite replace_from_skip.
Qed.

Lemma replace_absent (s before after : string) :
  QString.isEmpty before = false →
  QString.contains s before = false →
  QString.replace s before after = s.
Proof.
  unfold QString.replace. intros -> Habs.
  induction s as [|c s IH]; [done|].
  cbn [QString.contains] in Habs. apply orb_false_iff in Habs as [Hhere Hlater].
  cbn [QString.replace_from]. rewrite Hhere. by rewrite IH.
Qed.

(** ** The registry *)

Lemma Register_first_shared_Some (ffs others : list string) (s : string) :
  Register_first_shared ffs others = Some s → s ∈ ffs ∧ s ∈ others.
Proof.
  induction ffs as [|x ffs IH]; simpl; [discriminate|].
  destruct (QStringList.contains others x) eqn:Hc.
  - intros [= <-]. split; [by left | by apply contains_elem_of].
  - intros [? ?]%IH. split; [by right | done].
Qed.

Lemma Register_first_shared_None (ffs others : list string) :
  Register_first_shared ffs others = None ↔ ∀ s, s ∈ ffs → s ∉ others.
Proof.
  induction ffs as [|x ffs IH]; simpl.
  - split; [by intros _ s ?%elem_of_nil | done].
  - destruct (QStringList.contains others x) eqn:Hc.
    + split; [discriminate|]. intros Hall.
      apply contains_elem_of in Hc. by destruct (Hall x); [left|].
    + rewrite IH. apply contains_false in Hc. split.
      * intros Hall s [->|?]%elem_of_cons; auto.
      * intros Hall s ?. apply Hall. by right.
Qed.

Lemma refused_iff_collides (reg : FilterContainer) (f : FileIOFilter) :
  Register_refused reg (Some f) ↔ Exists (collides f) reg.
Proof.
  rewrite Exists_exists. unfold Register_refused, collides. split.
  - intros [(g & ? & ?)|(g & s & ? & ? & ?)]; exists g; eauto.
  - intros (g & ? & [?|(s & ? & ?)]); [left | right]; eauto.
Qed.

(** The loop of Register writes to the log only, and leaves the function
    exactly when a registered filter stands in the way. *)
Lemma Register_loop_spec (f : FileIOFilter) (it : list FileIOFilter) (w : World) :
  s_ioFilters (Register_loop f it w).2 = s_ioFilters w ∧
  s_sessionCounter (Register_loop f it w).2 = s_sessionCounter w ∧
  ((Register_loop f it w).1 = true ↔ Exists (collides f) it).
Proof.
  revert w. induction it as [|g it IH]; intros w; simpl.
  - split_and!; [done..|]. split; [discriminate | by intros ?%Exists_nil].
  - unfold Shared_eqb. destruct (Nat.eqb_spec (this g) (this f)) as [Heq|Hne].
    + split_and!; [done..|]. split; [|done]. intros _. left. by left.
    + destruct (Register_first_shared _ _) as [s|] eqn:Hs.
      * split_and!; [done..|]. split; [|done]. intros _. left. right.
        exists s. by apply Register_first_shared_Some.
      * destruct (IH w) as (? & ? & Hb). split_and!; [done..|].
        rewrite Hb, Exists_cons. split; [by right|].
        intros [[?|(s & ? & ?)]|?]; [done| |done].
        by destruct (proj1 (Register_first_shared_None _ _) Hs s).
Qed.

Lemma Register_refused_unchanged (w : World) (filter : Shared) :
  Register_refused (s_ioFilters w) filter →
  s_ioFilters (Register filter w).2 = s_ioFilters w.
Proof.
  destruct filter as [f|]; [|done].
  intros Href%refused_iff_collides. unfold Register, bind, get_ioFilters.
  destruct (Register_loop_spec f (s_ioFilters w) w) as (Hfs & _ & Hb).
  destruct (Register_loop f (s_ioFilters w) w) as [b w']; simpl in *.
  apply Hb in Href as ->. done.
Qed.

Lemma Register_accepted_appends (w : World) (f : FileIOFilter) :
  ¬ Register_refused (s_ioFilters w) (Some f) →
  s_ioFilters (Register (Some f) w).2 = s_ioFilters w ++ [f].
Proof.
  rewrite refused_iff_collides. intros Hok. unfold Register, bind, get_ioFilters.
  destruct (Register_loop_spec f (s_ioFilters w) w) as (Hfs & _ & Hb).
  destruct (Register_loop f (s_ioFilters w) w) as [[] w']; simpl in *.
  - by destruct Hok; apply Hb.
  - by rewrite Hfs.
Qed.

Lemma Register_counter (w : World) (filter : Shared) :
  s_sessionCounter (Register filter w).2 = s_sessionCounter w.
Proof.
  destruct filter as [f|]; [|done]. unfold Register, bind, get_ioFilters.
  destruct (Register_loop_spec f (s_ioFilters w) w) as (_ & Hc & _).
  by destruct (Register_loop f (s_ioFilters w) w) as [[] w'].
Qed.

Lemma registry_unique_snoc (reg : FilterContainer) (f : FileIOFilter) :
  registry_unique reg → ¬ Exists (collides f) reg → registry_unique (reg ++ [f]).
Proof.
  intros [Hnd Hdisj] Hok. rewrite Exists_exists in Hok. split.
  - rewrite fmap_app. apply NoDup_app. split_and!; [done| |apply NoDup_singleton].
    intros a (g & Ha & Hg)%list_elem_of_fmap Hf%list_elem_of_singleton.
    apply Hok. exists g. split; [done|]. left. congruence.
  - intros i j g1 g2 s [H1|[? H1]]%lookup_app_Some [H2|[? H2]]%lookup_app_Some Hij Hs1 Hs2.
    + by eapply (Hdisj i j g1 g2 s).
    + apply list_lookup_singleton_Some in H2 as [_ <-].
      apply Hok. exists g1. split; [by eapply list_elem_of_lookup_2|]. right. by exists s.
    + apply list_lookup_singleton_Some in H1 as [_ <-].
      apply Hok. exists g2. split; [by eapply list_elem_of_lookup_2|]. right. by exists s.
    + apply list_lookup_singleton_Some in H1 as [? _].
      apply list_lookup_singleton_Some in H2 as [? _]. lia.
Qed.

(** C4.  A registration of a null filter, of a filter already registered
    (same address) or of a filter that shares an import file filter with a
    registered one leaves the registry as it was, element for element; any
    other registration appends the filter.  Hence no call of Register breaks
    the uniqueness of the registry: no address twice, no import file filter
    in two registered filters. *)
Theorem Register_keeps_registry_unique (w : World) (filter : Shared) :
  (Register_refused (s_ioFilters w) filter →
     s_ioFilters (Register filter w).2 = s_ioFilters w ∧
     length (s_ioFilters (Register filter w).2) = length (s_ioFilters w)) ∧
  (∀ f, filter = Some f → ¬ Register_refused (s_ioFilters w) filter →
     s_ioFilters (Register filter w).2 = s_ioFilters w ++ [f]) ∧
  (registry_unique (s_ioFilters w) →
     registry_unique (s_ioFilters (Register filter w).2)).
Proof.
  split_and!.
  - intros Href. by rewrite (Register_refused_unchanged _ _ Href).
  - intros f -> Hok. by apply Register_accepted_appends.
  - intros Huniq. destruct filter as [f|]; [|done].
    destruct (Register_loop_spec f (s_ioFilters w) w) as (_ & _ & Hb).
    destruct (Register_loop f (s_ioFilters w) w).1 eqn:Hloop.
    + rewrite Register_refused_unchanged; [done|].
      by apply refused_iff_collides, Hb.
    + assert (¬ Exists (collides f) (s_ioFilters w)) as Hok
        by (intros Hc%Hb; discriminate).
      rewrite Register_accepted_appends; [|by rewrite refused_iff_collides].
      by apply registry_unique_snoc.
Qed.

Lemma FindBestFilterForExtension_loop_list_find (upperExt : string) (it : list FileIOFilter) :
  FindBestFilterForExtension_loop upperExt it
  = snd <$> list_find (λ f, canLoadExtension f upperExt = true) it.
Proof.
  induction it as [|f it IH]; [done|]. cbn.
  destruct (canLoadExtension f upperExt) eqn:Hf.
  - by rewrite decide_True.
  - rewrite decide_False by congruence. rewrite IH.
    by destruct (list_find _ it) as [[i g]|].
Qed.

(** C9.  FindBestFilterForExtension asks the registered filters, in the
    order of their registration, whether they can load the upper-cased
    extension, and returns the first that says yes: the result is the filter
    at position [i] exactly when that filter accepts and none at an earlier
    position does; it is null exactly when no registered filter accepts.
    The registry and the counter are not touched, and two spellings of an
    extension that differ in case only get the same answer. *)
Theorem FindBestFilterForExtension_first_registered (w : World) (ext : string) :
  let upperExt := QString.toUpper ext in
  let found := (FindBestFilterForExtension ext w).1 in
  (FindBestFilterForExtension ext w).2 = w ∧
  (∀ f, found = Some f ↔
        ∃ i, s_ioFilters w !! i = Some f ∧ canLoadExtension f upperExt = true ∧
             ∀ j g, s_ioFilters w !! j = Some g → (j < i)%nat →
                    canLoadExtension g upperExt = false) ∧
  (found = None ↔ Forall (λ g, canLoadExtension g upperExt = false) (s_ioFilters w)) ∧
  (∀ ext', QString.toUpper ext' = upperExt →
           FindBestFilterForExtension ext' w = FindBestFilterForExtension ext w).
Proof.
  intros upperExt found. subst found.
  change (FindBestFilterForExtension ext w)
    with (FindBestFilterForExtension_loop upperExt (s_ioFilters w), w).
  rewrite FindBestFilterForExtension_loop_list_find.
  change ((?a, ?b).1) with a. change ((?a, ?b).2) with b. split_and!.
  - done.
  - intros f. split.
    + destruct (list_find _ _) as [[i g]|] eqn:Hfind; [|discriminate].
      intros [= ->]. apply list_find_Some in Hfind as (Hi & Hf & Hbefore).
      exists i. split_and!; [done..|]. intros j g Hj Hlt.
      specialize (Hbefore j g Hj Hlt). by destruct (canLoadExtension g upperExt).
    + intros (i & Hi & Hf & Hbefore).
      assert (list_find (λ f, canLoadExtension f upperExt = true) (s_ioFilters w)
              = Some (i, f)) as ->; [|done].
      apply list_find_Some. split_and!; [done..|]. intros j g Hj Hlt.
      rewrite (Hbefore j g Hj Hlt). discriminate.
  - rewrite fmap_None, list_find_None. apply Forall_iff. intros g.
    apply not_true_iff_false.
  - intros ext' Hext'. unfold FindBestFilterForExtension. rewrite Hext'.
    unfold bind, get_ioFilters, ret.
    by rewrite FindBestFilterForExtension_loop_list_find.
Qed.

(** ** Loading *)

Lemma bind_run {A B} (m : M A) (k : A → M B) (w : World) :
  bind m k w = k (m w).1 (m w).2.
Proof. unfold bind. by destruct (m w). Qed.

Lemma GetFilter_run (fileFilter : string) (onImport : bool) (w : World) :
  GetFilter fileFilter onImport w
  = (if negb (QString.isEmpty fileFilter)
     then GetFilter_loop fileFilter onImport (s_ioFilters w) else None, w).
Proof. unfold GetFilter. by destruct (QString.isEmpty fileFilter). Qed.

Lemma FindBestFilterForExtension_run (ext : string) (w : World) :
  FindBestFilterForExtension ext w
  = (FindBestFilterForExtension_loop (QString.toUpper ext) (s_ioFilters w), w).
Proof. done. Qed.

Lemma loadFile_calls_app (tr1 tr2 : list Event) :
  loadFile_calls (tr1 ++ tr2) = loadFile_calls tr1 ++ loadFile_calls tr2.
Proof. apply omap_app. Qed.

(** Runs a computation made of [emit], [ret] and [bind] on a state and
    reads the loadFile calls off the extended trace. *)
Ltac run_log :=
  cbn -[loadFile_calls];
  rewrite ?loadFile_calls_app; cbn; rewrite ?app_nil_r;
  try done.

Lemma DisplayErrorMessage_spec (err : CC_FILE_ERROR) (action filename : string) (w : World) :
  s_ioFilters (DisplayErrorMessage err action filename w).2 = s_ioFilters w ∧
  s_sessionCounter (DisplayErrorMessage err action filename w).2 = s_sessionCounter w ∧
  loadFile_calls (trace (DisplayErrorMessage err action filename w).2)
  = loadFile_calls (trace w).
Proof.
  unfold DisplayErrorMessage.
  destruct (DisplayErrorMessage_errorStr err) as [[errorStr []]|]; simpl;
    rewrite ?loadFile_calls_app, ?app_nil_r; done.
Qed.

Section LoadProperties.

Context `{Collaborators}.

Lemma LoadFromFile_report_spec (filename : string) (fi : QFileInfo)
    (result : CC_FILE_ERROR) (w : World) :
  s_ioFilters (LoadFromFile_report filename fi result w).2 = s_ioFilters w ∧
  s_sessionCounter (LoadFromFile_report filename fi result w).2 = s_sessionCounter w ∧
  loadFile_calls (trace (LoadFromFile_report filename fi result w).2)
  = loadFile_calls (trace w).
Proof.
  unfold LoadFromFile_report. destruct (CC_FILE_ERROR_eqb _ _).
  - cbn. by rewrite loadFile_calls_app, app_nil_r.
  - apply DisplayErrorMessage_spec.
Qed.

Lemma LoadFromFile_try_spec (filename : string) (loadParameters : LoadParameters)
    (f : FileIOFilter) (container : ccHObject) (w : World) :
  let res := LoadFromFile_try filename loadParameters f container w in
  s_ioFilters res.2 = s_ioFilters w ∧
  s_sessionCounter res.2 = s_sessionCounter w ∧
  loadFile_calls (trace res.2)
  = loadFile_calls (trace w) ++ [(this f, filename, loadParameters)] ∧
  match loadFile f filename container loadParameters with
  | (Returns result, container', loadParameters') =>
      res.1 = (result, container', loadParameters')
  | (Throws _, container', loadParameters') =>
      res.1 = (CC_FERR_CONSOLE_ERROR, ccHObject_.removeAllChildren container',
               loadParameters')
  end.
Proof.
  unfold LoadFromFile_try, bind, emit, ret.
  destruct (loadFile f filename container loadParameters)
    as [[[result|[what|]] container'] loadParameters'];
    cbn; rewrite !loadFile_calls_app; cbn; rewrite ?app_nil_r; done.
Qed.

Lemma LoadFromFile_finish_spec (fi : QFileInfo) (container : ccHObject) :
  LoadFromFile_finish fi container =
    match ccHObject_.getChildren container with
    | [] => None
    | children =>
        Some (HObject (fileName fi +:+ " (" +:+ absolutePath fi +:+ ")")
                (map (LoadFromFile_rename_child fi) children))
    end.
Proof. by destruct container as [n [|c cs]]. Qed.

(** LoadFromFile on valid input, statement by statement: the counter goes
    up by one, the filter is called once with a fresh container and the
    session flag, and the result follows from what the filter did. *)
Lemma LoadFromFile_valid (w : World) (filename : string)
    (loadParameters : LoadParameters) (f : FileIOFilter) :
  exists_ (QFileInfo_ filename) = true →
  let fi := QFileInfo_ filename in
  let res := LoadFromFile filename loadParameters (Some f) w in
  s_ioFilters res.2 = s_ioFilters w ∧
  s_sessionCounter res.2 = (s_sessionCounter w + 1) mod UINT_MODULUS ∧
  loadFile_calls (trace res.2)
  = loadFile_calls (trace w)
      ++ [(this f, filename, parameters_for_filter w loadParameters)] ∧
  match filter_outcome w filename loadParameters f with
  | (Returns result, container, loadParameters') =>
      lr_result res.1 = result ∧
      lr_parameters res.1 = loadParameters' ∧
      lr_container res.1 = LoadFromFile_finish fi container
  | (Throws _, _, loadParameters') =>
      lr_result res.1 = CC_FERR_CONSOLE_ERROR ∧
      lr_parameters res.1 = loadParameters' ∧
      lr_container res.1 = None
  end.
Proof.
  intros Hex fi res. subst res fi.
  unfold filter_outcome, parameters_for_filter.
  destruct (LoadFromFile filename loadParameters (Some f) w) as [r w'] eqn:Hrun.
  unfold LoadFromFile in Hrun. rewrite Hex in Hrun.
  unfold IncreaseSesionCounter, get_sessionCounter, set_sessionCounter, bind, ret in Hrun.
  cbn [negb s_sessionCounter] in Hrun.
  set (w1 := {| s_ioFilters := s_ioFilters w;
                s_sessionCounter := (s_sessionCounter w + 1) mod UINT_MODULUS;
                trace := trace w |}) in Hrun.
  set (p1 := set_sessionStart _ loadParameters) in *.
  set (c0 := ccHObject_.new ccHObject_defaultName) in *.
  pose proof (LoadFromFile_try_spec filename p1 f c0 w1) as Htry. cbn zeta in Htry.
  destruct (LoadFromFile_try filename p1 f c0 w1) as [[[result container] p2] w2].
  cbn [fst snd] in Htry. destruct Htry as (Hf & Hc & Ht & Hout).
  pose proof (LoadFromFile_report_spec filename (QFileInfo_ filename) result w2) as Hrep.
  destruct (LoadFromFile_report filename (QFileInfo_ filename) result w2) as [[] w3].
  cbn [fst snd] in Hrep. destruct Hrep as (Hf' & Hc' & Ht').
  injection Hrun as <- <-.
  subst w1. cbn [s_ioFilters s_sessionCounter trace] in Hf, Hc, Ht.
  cbn [fst snd lr_result lr_parameters lr_container].
  split_and!; [congruence | congruence | congruence |].
  destruct (loadFile f filename c0 p1) as [[[r|e] c'] p'].
  - by injection Hout as -> -> ->.
  - injection Hout as -> -> ->. split_and!; [done..|].
    rewrite LoadFromFile_finish_spec. by destruct c'.
Qed.

End LoadProperties.

Section LoadClaims.

Context `{Collaborators}.

Lemma LoadFromFile_invalid (w : World) (filename : string)
    (loadParameters : LoadParameters) (filter : Shared) :
  filter = None ∨ exists_ (QFileInfo_ filename) = false →
  let res := LoadFromFile filename loadParameters filter w in
  lr_result res.1 = CC_FERR_CONSOLE_ERROR ∧
  lr_container res.1 = None ∧
  lr_parameters res.1 = loadParameters ∧
  loadFile_calls (trace res.2) = loadFile_calls (trace w) ∧
  s_sessionCounter res.2 = s_sessionCounter w ∧
  s_ioFilters res.2 = s_ioFilters w.
Proof.
  intros Hbad. unfold LoadFromFile. destruct filter as [f|].
  - destruct Hbad as [? | ->]; [done|]. cbn.
    by rewrite loadFile_calls_app, app_nil_r.
  - run_log.
Qed.

(** C7.  LoadFromFile with a null filter, or on a path at which no file
    exists, returns CC_FERR_CONSOLE_ERROR and a null container; no
    filter's loadFile is called and the session counter keeps its value.
    The same holds for the overload that looks the filter up, whatever the
    file filter string. *)
Theorem LoadFromFile_missing_file_short_circuits (w : World) (filename : string)
    (loadParameters : LoadParameters) :
  (∀ filter, filter = None ∨ exists_ (QFileInfo_ filename) = false →
     let res := LoadFromFile filename loadParameters filter w in
     lr_result res.1 = CC_FERR_CONSOLE_ERROR ∧
     lr_container res.1 = None ∧
     loadFile_calls (trace res.2) = loadFile_calls (trace w) ∧
     s_sessionCounter res.2 = s_sessionCounter w) ∧
  (∀ fileFilter, exists_ (QFileInfo_ filename) = false →
     let res := LoadFromFile_by_name filename loadParameters fileFilter w in
     lr_result res.1 = CC_FERR_CONSOLE_ERROR ∧
     lr_container res.1 = None ∧
     loadFile_calls (trace res.2) = loadFile_calls (trace w) ∧
     s_sessionCounter res.2 = s_sessionCounter w).
Proof.
  split.
  - intros filter Hbad.
    destruct (LoadFromFile_invalid w filename loadParameters filter Hbad)
      as (? & ? & _ & ? & ? & _). done.
  - intros fileFilter Hex. unfold LoadFromFile_by_name.
    assert (∀ f : FileIOFilter,
              let res := LoadFromFile filename loadParameters (Some f) w in
              lr_result res.1 = CC_FERR_CONSOLE_ERROR ∧
              lr_container res.1 = None ∧
              loadFile_calls (trace res.2) = loadFile_calls (trace w) ∧
              s_sessionCounter res.2 = s_sessionCounter w) as Hload.
    { intros f.
      destruct (LoadFromFile_invalid w filename loadParameters (Some f))
        as (? & ? & _ & ? & ? & _); [by right | done]. }
    destruct (QString.isEmpty fileFilter) eqn:Hff; cbn [negb].
    + destruct (QString.isEmpty (suffix (QFileInfo_ filename))).
      * run_log.
      * rewrite bind_run, FindBestFilterForExtension_run. cbn [fst snd].
        destruct (FindBestFilterForExtension_loop _ _) as [f|]; [apply Hload|].
        run_log.
    + rewrite bind_run, GetFilter_run, Hff. cbn [fst snd negb].
      destruct (GetFilter_loop _ _ _) as [f|]; [apply Hload|].
      run_log.
Qed.

(** C3.  When the file exists and the filter returns (whatever code)
    leaving the container without a child, LoadFromFile reports the code
    of the filter, NO_ERROR included, and returns a null container. *)
Theorem LoadFromFile_empty_result_is_null (w : World) (filename : string)
    (loadParameters : LoadParameters) (f : FileIOFilter)
    (result : CC_FILE_ERROR) (container : ccHObject) (loadParameters' : LoadParameters) :
  exists_ (QFileInfo_ filename) = true →
  filter_outcome w filename loadParameters f = (Returns result, container, loadParameters') →
  ccHObject_.getChildrenNumber container = 0%nat →
  let res := LoadFromFile filename loadParameters (Some f) w in
  lr_result res.1 = result ∧ lr_container res.1 = None.
Proof.
  intros Hex Hout Hempty res. subst res.
  destruct (LoadFromFile_valid w filename loadParameters f Hex) as (_ & _ & _ & Hres).
  rewrite Hout in Hres. destruct Hres as (-> & _ & ->). split; [done|].
  unfold LoadFromFile_finish. by rewrite Hempty.
Qed.

Lemma removeAllChildren_number (container : ccHObject) :
  ccHObject_.getChildrenNumber (ccHObject_.removeAllChildren container) = 0%nat.
Proof. by destruct container. Qed.

(** C2.  An exception thrown by a filter, of whatever type, stops at
    LoadFromFile and SaveToFile.  Load: the handler empties the container
    the filter had begun to fill, the code is CC_FERR_CONSOLE_ERROR and
    the caller receives a null container.  Save: the code is
    CC_FERR_CONSOLE_ERROR.  Both functions return a value in every case:
    their result type has no room for an exception. *)
Theorem filter_exceptions_are_contained (w : World) (filename : string)
    (f : FileIOFilter) (e : Exception) :
  (∀ loadParameters container loadParameters',
     exists_ (QFileInfo_ filename) = true →
     filter_outcome w filename loadParameters f = (Throws e, container, loadParameters') →
     let res := LoadFromFile filename loadParameters (Some f) w in
     lr_result res.1 = CC_FERR_CONSOLE_ERROR ∧
     lr_container res.1 = None) ∧
  (∀ loadParameters container0 container loadParameters',
     loadFile f filename container0 loadParameters = (Throws e, container, loadParameters') →
     ∃ emptied,
       (LoadFromFile_try filename loadParameters f container0 w).1
       = (CC_FERR_CONSOLE_ERROR, emptied, loadParameters') ∧
       ccHObject_.getChildrenNumber emptied = 0%nat) ∧
  (∀ entities parameters,
     QString.isEmpty filename = false →
     saveToFile f entities (SaveToFile_completeFileName filename f) parameters = Throws e →
     (SaveToFile (Some entities) filename parameters (Some f) w).1 = CC_FERR_CONSOLE_ERROR).
Proof.
  split_and!.
  - intros loadParameters container loadParameters' Hex Hout res. subst res.
    destruct (LoadFromFile_valid w filename loadParameters f Hex) as (_ & _ & _ & Hres).
    rewrite Hout in Hres. by destruct Hres as (-> & _ & ->).
  - intros loadParameters container0 container loadParameters' Hout.
    destruct (LoadFromFile_try_spec filename loadParameters f container0 w)
      as (_ & _ & _ & Hres).
    rewrite Hout in Hres. eexists. split; [exact Hres|].
    apply removeAllChildren_number.
  - intros entities parameters Hname Hout. unfold SaveToFile. rewrite Hname.
    rewrite !bind_run. unfold SaveToFile_try at 1.
    rewrite bind_run, Hout. done.
Qed.

Lemma rename_child_children (fi : QFileInfo) (child : ccHObject) :
  ccHObject_.getChildren (LoadFromFile_rename_child fi child)
  = ccHObject_.getChildren child.
Proof.
  unfold LoadFromFile_rename_child.
  destruct (QString.startsWith _ _); by destruct child.
Qed.

Lemma rename_child_name (fi : QFileInfo) (child : ccHObject) :
  ccHObject_.getName (LoadFromFile_rename_child fi child)
  = if QString.startsWith (ccHObject_.getName child) "unnamed"
    then QString.replace (ccHObject_.getName child) "unnamed" (baseName fi)
    else ccHObject_.getName child.
Proof.
  unfold LoadFromFile_rename_child.
  destruct (QString.startsWith _ _); by destruct child.
Qed.

(** C5, as the code has it.  A load that returns a container (the filter
    returned and left at least one child) names the root
    "<fileName> (<absolutePath>)" and keeps the children in number and
    order.  A child whose name does not start with "unnamed" keeps its
    name.  In the name of a child that starts with "unnamed", every
    occurrence of "unnamed" is replaced by the base name: the leading one
    and those in the rest of the name; when the rest holds no further
    occurrence the new name is the base name followed by the rest. *)
Theorem LoadFromFile_renames_root_and_children (w : World) (filename : string)
    (loadParameters : LoadParameters) (f : FileIOFilter)
    (result : CC_FILE_ERROR) (container : ccHObject) (loadParameters' : LoadParameters) :
  exists_ (QFileInfo_ filename) = true →
  filter_outcome w filename loadParameters f = (Returns result, container, loadParameters') →
  ccHObject_.getChildren container ≠ [] →
  let fi := QFileInfo_ filename in
  let base := baseName fi in
  ∃ children',
    lr_container (LoadFromFile filename loadParameters (Some f) w).1
    = Some (HObject (fileName fi +:+ " (" +:+ absolutePath fi +:+ ")") children') ∧
    Forall2 (λ child child',
               let n := ccHObject_.getName child in
               let n' := ccHObject_.getName child' in
               ccHObject_.getChildren child' = ccHObject_.getChildren child ∧
               (QString.startsWith n "unnamed" = false → n' = n) ∧
               (QString.startsWith n "unnamed" = true →
                  ∃ rest, n = "unnamed" +:+ rest ∧
                          n' = base +:+ QString.replace rest "unnamed" base ∧
                          (QString.contains rest "unnamed" = false →
                             n' = base +:+ rest)))
            (ccHObject_.getChildren container) children'.
Proof.
  intros Hex Hout Hne fi base.
  destruct (LoadFromFile_valid w filename loadParameters f Hex) as (_ & _ & _ & Hres).
  rewrite Hout in Hres. destruct Hres as (_ & _ & ->).
  rewrite LoadFromFile_finish_spec.
  destruct (ccHObject_.getChildren container) as [|c cs] eqn:Hcs; [done|].
  exists (map (LoadFromFile_rename_child fi) (c :: cs)). split; [done|].
  apply Forall2_fmap_r, Forall_Forall2_diag, Forall_forall.
  intros child _. unfold compose. cbn beta.
  rewrite rename_child_children, rename_child_name.
  split_and!; [done | by intros -> |].
  intros Hstart. rewrite Hstart.
  destruct (startsWith_inv _ _ Hstart) as [rest Hrest]. exists rest.
  rewrite Hrest. rewrite (replace_leading "unnamed" (baseName fi) rest eq_refl).
  split_and!; [done..|].
  intros Habs. by rewrite (replace_absent rest "unnamed" (baseName fi) eq_refl Habs).
Qed.

End LoadClaims.

(** ** The session counter *)

Section SessionClaims.

Context `{Collaborators}.

Lemma after_loads_0 (reqs : N → LoadRequest) (w : World) :
  after_loads reqs w 0 = w.
Proof. done. Qed.

Lemma after_loads_succ (reqs : N → LoadRequest) (w : World) (n : N) :
  after_loads reqs w (N.succ n) = (load (reqs n) (after_loads reqs w n)).2.
Proof. unfold after_loads. by rewrite N.peano_rect_succ. Qed.

Lemma load_counter (rq : LoadRequest) (w : World) :
  valid_request rq →
  s_sessionCounter (load rq w).2 = (s_sessionCounter w + 1) mod UINT_MODULUS.
Proof.
  intros Hv.
  by destruct (LoadFromFile_valid w (rq_filename rq) (rq_parameters rq) (rq_filter rq) Hv)
    as (_ & ? & _).
Qed.

Lemma load_sessionStart (rq : LoadRequest) (w : World) :
  valid_request rq →
  (λ c : nat * string * LoadParameters, sessionStart c.2)
    <$> last (drop (length (loadFile_calls (trace w)))
                (loadFile_calls (trace (load rq w).2)))
  = Some ((s_sessionCounter w + 1) mod UINT_MODULUS =? 1).
Proof.
  intros Hv.
  destruct (LoadFromFile_valid w (rq_filename rq) (rq_parameters rq) (rq_filter rq) Hv)
    as (_ & _ & Hcalls & _).
  unfold load. rewrite Hcalls, drop_app_length. done.
Qed.

(** The counter after [n] valid loads that follow a reset. *)
Lemma counter_after_loads (reqs : N → LoadRequest) (w : World) (n : N) :
  (∀ k, valid_request (reqs k)) →
  s_sessionCounter w = 0 →
  s_sessionCounter (after_loads reqs w n) = Z.of_N n mod UINT_MODULUS.
Proof.
  intros Hv Hw. induction n as [|n IH] using N.peano_ind.
  - by rewrite after_loads_0, Hw.
  - rewrite after_loads_succ, load_counter, IH by done.
    rewrite Z.add_mod_idemp_l by done. f_equal. lia.
Qed.

(** The flag the filter sees in load number [n] after a reset. *)
Lemma sessionStart_of_load_value (reqs : N → LoadRequest) (w : World) (n : N) :
  (∀ k, valid_request (reqs k)) →
  s_sessionCounter w = 0 →
  sessionStart_of_load reqs w n = Some ((Z.of_N n + 1) mod UINT_MODULUS =? 1).
Proof.
  intros Hv Hw. unfold sessionStart_of_load.
  rewrite load_sessionStart, counter_after_loads by done.
  by rewrite Z.add_mod_idemp_l.
Qed.

(** C6, as the code has it.  After ResetSesionCounter, in any sequence of
    calls of LoadFromFile with valid input, each call raises the counter
    by one (modulo 2^32, the counter being an unsigned) and hands the
    filter sessionStart = (new counter value == 1).  Hence the first load
    after a reset sees true and each of the following 2^32 - 1 loads sees
    false; and after a further reset, at any point, the next load sees
    true again. *)
Theorem sessionStart_marks_first_load_after_reset (reqs : N → LoadRequest) (w : World) :
  (∀ k, valid_request (reqs k)) →
  let w0 := (ResetSesionCounter w).2 in
  (∀ n, s_sessionCounter (after_loads reqs w0 n) = Z.of_N n mod UINT_MODULUS) ∧
  (∀ n, sessionStart_of_load reqs w0 n
        = Some (s_sessionCounter (after_loads reqs w0 (N.succ n)) =? 1)) ∧
  sessionStart_of_load reqs w0 0 = Some true ∧
  (∀ n, (0 < n)%N → Z.of_N n < UINT_MODULUS →
        sessionStart_of_load reqs w0 n = Some false) ∧
  (∀ n reqs', (∀ k, valid_request (reqs' k)) →
        sessionStart_of_load reqs' (ResetSesionCounter (after_loads reqs w0 n)).2 0
        = Some true).
Proof.
  intros Hv w0.
  assert (s_sessionCounter w0 = 0) as Hw0 by done.
  split_and!.
  - intros n. by apply counter_after_loads.
  - intros n. rewrite sessionStart_of_load_value, counter_after_loads by done.
    do 3 f_equal. lia.
  - by rewrite sessionStart_of_load_value.
  - intros n Hpos Hlt. rewrite sessionStart_of_load_value by done. f_equal.
    apply Z.eqb_neq. unfold UINT_MODULUS, UINT_WIDTH in *.
    destruct (decide (Z.of_N n + 1 = 2 ^ 32)) as [->|Hne].
    + by rewrite Z.mod_same.
    + rewrite Z.mod_small; lia.
  - intros n reqs' Hv'. by rewrite sessionStart_of_load_value.
Qed.

End SessionClaims.

(** ** Global shift *)

Lemma Handle_calls_app (tr1 tr2 : list Event) :
  Handle_calls (tr1 ++ tr2) = Handle_calls tr1 ++ Handle_calls tr2.
Proof. apply omap_app. Qed.

Section ShiftClaims.

Context `{Collaborators}.

(** HandleGlobalShift when coordinates are narrower than a double: Handle
    is called once and its answer is passed on. *)
Lemma HandleGlobalShift_narrow (w : World) (P Pshift : CCVector3d)
    (preserveCoordinateShift : bool) (loadParameters : LoadParameters)
    (useInputCoordinatesShiftIfPossible : bool) :
  sizeof_PointCoordinateType < 8 →
  let args := HandleGlobalShift_args P Pshift preserveCoordinateShift loadParameters
                useInputCoordinatesShiftIfPossible in
  let r := ccGlobalShiftManager_Handle args in
  HandleGlobalShift P Pshift preserveCoordinateShift loadParameters
    useInputCoordinatesShiftIfPossible w
  = ({| sr_return := r_handled r;
        sr_Pshift := r_coordinatesShift r;
        sr_preserveCoordinateShift := r_preserveCoordinateShift r;
        sr_parameters :=
          if r_handled r
          then HandleGlobalShift_save (r_applyAll r) (r_coordinatesShift r)
                 (r_preserveCoordinateShift r) loadParameters
          else loadParameters |},
     {| s_ioFilters := s_ioFilters w;
        s_sessionCounter := s_sessionCounter w;
        trace := trace w ++ [call_Handle args] |}).
Proof.
  intros Hsize args r. unfold HandleGlobalShift.
  apply Z.ltb_lt in Hsize as ->. fold args. rewrite bind_run. cbn [emit fst snd].
  fold r. by destruct (r_handled r).
Qed.

(** HandleGlobalShift when coordinates are doubles: nothing is called. *)
Lemma HandleGlobalShift_full (w : World) (P Pshift : CCVector3d)
    (preserveCoordinateShift : bool) (loadParameters : LoadParameters)
    (useInputCoordinatesShiftIfPossible : bool) :
  8 ≤ sizeof_PointCoordinateType →
  HandleGlobalShift P Pshift preserveCoordinateShift loadParameters
    useInputCoordinatesShiftIfPossible w
  = ({| sr_return := false;
        sr_Pshift := HandleGlobalShift_Pshift Pshift loadParameters;
        sr_preserveCoordinateShift :=
          HandleGlobalShift_preserve preserveCoordinateShift loadParameters;
        sr_parameters := loadParameters |}, w).
Proof.
  intros Hsize. unfold HandleGlobalShift.
  by apply Z.ltb_ge in Hsize as ->.
Qed.

Lemma args_of_active_shift (P Pshift stored : CCVector3d)
    (preserveCoordinateShift : bool) (loadParameters : LoadParameters)
    (useInputCoordinatesShiftIfPossible : bool) :
  coordinatesShiftEnabled loadParameters = Some true →
  coordinatesShift loadParameters = Some stored →
  HandleGlobalShift_args P Pshift preserveCoordinateShift loadParameters
    useInputCoordinatesShiftIfPossible
  = {| h_P := P;
       h_diagonal := 0;
       h_mode := shiftHandlingMode loadParameters;
       h_useInputCoordinatesShiftIfPossible := true;
       h_coordinatesShift := stored;
       h_preserveCoordinateShift := preserveShiftOnSave loadParameters;
       h_applyAll := false |}.
Proof.
  intros Hen Hsh.
  unfold HandleGlobalShift_args, HandleGlobalShift_Pshift, HandleGlobalShift_preserve,
    shiftAlreadyEnabled.
  by rewrite Hen, Hsh.
Qed.

(** C8.  When sizeof(PointCoordinateType) is 8 or more, HandleGlobalShift
    returns false whatever the point and the mode; it does not call
    ccGlobalShiftManager::Handle, leaves the parameters and the program
    state as they were, and the shift it leaves in [Pshift] is the one the
    caller passed, or the stored one if a shift was active.  Conversely
    Handle is called (once) exactly when the type is narrower. *)
Theorem HandleGlobalShift_full_precision_never_shifts (w : World) (P Pshift : CCVector3d)
    (preserveCoordinateShift : bool) (loadParameters : LoadParameters)
    (useInputCoordinatesShiftIfPossible : bool) :
  let res := HandleGlobalShift P Pshift preserveCoordinateShift loadParameters
               useInputCoordinatesShiftIfPossible w in
  (8 ≤ sizeof_PointCoordinateType →
     sr_return res.1 = false ∧
     sr_parameters res.1 = loadParameters ∧
     sr_Pshift res.1 = HandleGlobalShift_Pshift Pshift loadParameters ∧
     res.2 = w) ∧
  (sizeof_PointCoordinateType < 8 →
     Handle_calls (trace res.2)
     = Handle_calls (trace w)
         ++ [HandleGlobalShift_args P Pshift preserveCoordinateShift loadParameters
               useInputCoordinatesShiftIfPossible]) ∧
  (Handle_calls (trace res.2) ≠ Handle_calls (trace w) →
     sizeof_PointCoordinateType < 8).
Proof.
  intros res. subst res. split_and!.
  - intros Hsize. by rewrite HandleGlobalShift_full.
  - intros Hsize. rewrite HandleGlobalShift_narrow by done.
    cbn [snd trace]. by rewrite Handle_calls_app.
  - intros Hcalled. destruct (Z.lt_ge_cases sizeof_PointCoordinateType 8) as [|Hsize]; [done|].
    rewrite HandleGlobalShift_full in Hcalled by done. done.
Qed.

(** C10.  When the type is narrower than a double and Handle reports a
    shift with the apply-all flag set, HandleGlobalShift returns true and
    hands the shift of Handle to the caller.  The shift is written to the
    parameters (enabled cell true, shift cell, preserve flag) if both
    pointers are set; if either is null the parameters are left as they
    were, and a later call does not find a shift enabled. *)
Theorem HandleGlobalShift_saves_only_with_both_slots (w : World) (P Pshift : CCVector3d)
    (preserveCoordinateShift : bool) (loadParameters : LoadParameters)
    (useInputCoordinatesShiftIfPossible : bool) :
  sizeof_PointCoordinateType < 8 →
  let r := ccGlobalShiftManager_Handle
             (HandleGlobalShift_args P Pshift preserveCoordinateShift loadParameters
                useInputCoordinatesShiftIfPossible) in
  r_handled r = true →
  r_applyAll r = true →
  let res := HandleGlobalShift P Pshift preserveCoordinateShift loadParameters
               useInputCoordinatesShiftIfPossible w in
  sr_return res.1 = true ∧
  sr_Pshift res.1 = r_coordinatesShift r ∧
  (is_Some (coordinatesShiftEnabled loadParameters) →
   is_Some (coordinatesShift loadParameters) →
     sr_parameters res.1
     = {| shiftHandlingMode := shiftHandlingMode loadParameters;
          coordinatesShiftEnabled := Some true;
          coordinatesShift := Some (r_coordinatesShift r);
          preserveShiftOnSave := r_preserveCoordinateShift r;
          sessionStart := sessionStart loadParameters |}) ∧
  (coordinatesShiftEnabled loadParameters = None ∨ coordinatesShift loadParameters = None →
     sr_parameters res.1 = loadParameters ∧
     shiftAlreadyEnabled (sr_parameters res.1) = false) ∧
  (sr_parameters res.1 ≠ loadParameters →
     is_Some (coordinatesShiftEnabled loadParameters) ∧
     is_Some (coordinatesShift loadParameters)).
Proof.
  intros Hsize r Hhandled HapplyAll res. subst res.
  rewrite HandleGlobalShift_narrow by done. fold r. rewrite Hhandled, HapplyAll.
  cbn [fst sr_return sr_Pshift sr_parameters]. unfold HandleGlobalShift_save, shiftAlreadyEnabled.
  split_and!; [done | done | | |].
  - by intros [en ->] [sh ->].
  - intros Hnull.
    destruct (coordinatesShiftEnabled loadParameters) as [[]|] eqn:Hen,
             (coordinatesShift loadParameters) as [sh|] eqn:Hsh;
      destruct Hnull; try done; by rewrite ?Hen, ?Hsh.
  - destruct (coordinatesShiftEnabled loadParameters), (coordinatesShift loadParameters);
      try done; by eauto.
Qed.

(** C1, as the code has it.  With a shift active (enabled cell true, shift
    cell set), HandleGlobalShift first copies the stored shift and the
    stored preserve flag to the caller's variables.  If the type has full
    precision that is what the caller gets.  Otherwise both are offered to
    ccGlobalShiftManager::Handle, with the reuse preference set, and the
    caller gets what Handle leaves in them: the stored shift and flag
    whenever Handle hands them back untouched, in which case the stored
    state stays as it was too. *)
Theorem HandleGlobalShift_offers_active_shift (w : World) (P Pshift stored : CCVector3d)
    (preserveCoordinateShift : bool) (loadParameters : LoadParameters)
    (useInputCoordinatesShiftIfPossible : bool) :
  coordinatesShiftEnabled loadParameters = Some true →
  coordinatesShift loadParameters = Some stored →
  let args := {| h_P := P;
                 h_diagonal := 0;
                 h_mode := shiftHandlingMode loadParameters;
                 h_useInputCoordinatesShiftIfPossible := true;
                 h_coordinatesShift := stored;
                 h_preserveCoordinateShift := preserveShiftOnSave loadParameters;
                 h_applyAll := false |} in
  let r := ccGlobalShiftManager_Handle args in
  let res := HandleGlobalShift P Pshift preserveCoordinateShift loadParameters
               useInputCoordinatesShiftIfPossible w in
  (8 ≤ sizeof_PointCoordinateType →
     sr_Pshift res.1 = stored ∧
     sr_preserveCoordinateShift res.1 = preserveShiftOnSave loadParameters ∧
     sr_parameters res.1 = loadParameters) ∧
  (sizeof_PointCoordinateType < 8 →
     Handle_calls (trace res.2) = Handle_calls (trace w) ++ [args] ∧
     sr_Pshift res.1 = r_coordinatesShift r ∧
     sr_preserveCoordinateShift res.1 = r_preserveCoordinateShift r) ∧
  (8 ≤ sizeof_PointCoordinateType ∨
   (r_coordinatesShift r = stored ∧
    r_preserveCoordinateShift r = preserveShiftOnSave loadParameters) →
     sr_Pshift res.1 = stored ∧
     sr_preserveCoordinateShift res.1 = preserveShiftOnSave loadParameters ∧
     sr_parameters res.1 = loadParameters).
Proof.
  intros Hen Hsh args r res.
  pose proof (args_of_active_shift P Pshift stored preserveCoordinateShift loadParameters
                useInputCoordinatesShiftIfPossible Hen Hsh) as Hargs. fold args in Hargs.
  assert (8 ≤ sizeof_PointCoordinateType →
          sr_Pshift res.1 = stored ∧
          sr_preserveCoordinateShift res.1 = preserveShiftOnSave loadParameters ∧
          sr_parameters res.1 = loadParameters) as Hfull.
  { intros Hsize. subst res. rewrite HandleGlobalShift_full by done.
    cbn [fst sr_Pshift sr_preserveCoordinateShift sr_parameters].
    unfold HandleGlobalShift_Pshift, HandleGlobalShift_preserve, shiftAlreadyEnabled.
    by rewrite Hen, Hsh. }
  assert (sizeof_PointCoordinateType < 8 →
          res = ({| sr_return := r_handled r;
                    sr_Pshift := r_coordinatesShift r;
                    sr_preserveCoordinateShift := r_preserveCoordinateShift r;
                    sr_parameters :=
                      if r_handled r
                      then HandleGlobalShift_save (r_applyAll r) (r_coordinatesShift r)
                             (r_preserveCoordinateShift r) loadParameters
                      else loadParameters |},
                 {| s_ioFilters := s_ioFilters w;
                    s_sessionCounter := s_sessionCounter w;
                    trace := trace w ++ [call_Handle args] |})) as Hnarrow.
  { intros Hsize. subst res. rewrite HandleGlobalShift_narrow by done.
    cbn zeta. rewrite Hargs. by subst r. }
  split_and!; [done | |].
  - intros Hsize. rewrite (Hnarrow Hsize). cbn [fst snd trace sr_Pshift sr_preserveCoordinateShift].
    by rewrite Handle_calls_app.
  - intros [Hsize | [Hshift Hpres]]; [by apply Hfull|].
    destruct (Z.lt_ge_cases sizeof_PointCoordinateType 8) as [Hsize|Hsize]; [|by apply Hfull].
    rewrite (Hnarrow Hsize). cbn [fst sr_Pshift sr_preserveCoordinateShift sr_parameters].
    split_and!; [done..|].
    destruct (r_handled r); [|done]. unfold HandleGlobalShift_save.
    rewrite Hen, Hsh, Hshift, Hpres. destruct (r_applyAll r); [|done].
    clear -Hen Hsh. destruct loadParameters. cbn in Hen, Hsh |- *. congruence.
Qed.

End ShiftClaims.

Section TwoCalls.

Context `{Collaborators}.

(** Two calls in one session: the first saves a shift for all the entities
    to come; the second, for any other point, reports that very shift
    provided Handle hands back the shift it is offered. *)
Lemma second_call_reports_first_shift (w : World) (P1 P2 Pshift1 Pshift2 : CCVector3d)
    (preserve1 preserve2 use1 use2 : bool) (loadParameters : LoadParameters) :
  sizeof_PointCoordinateType < 8 →
  is_Some (coordinatesShiftEnabled loadParameters) →
  is_Some (coordinatesShift loadParameters) →
  let r1 := ccGlobalShiftManager_Handle
              (HandleGlobalShift_args P1 Pshift1 preserve1 loadParameters use1) in
  r_handled r1 = true →
  r_applyAll r1 = true →
  let res1 := HandleGlobalShift P1 Pshift1 preserve1 loadParameters use1 w in
  let r2 := ccGlobalShiftManager_Handle
              (HandleGlobalShift_args P2 Pshift2 preserve2 (sr_parameters res1.1) use2) in
  r_coordinatesShift r2 = r_coordinatesShift r1 →
  let res2 := HandleGlobalShift P2 Pshift2 preserve2 (sr_parameters res1.1) use2 res1.2 in
  h_coordinatesShift (HandleGlobalShift_args P2 Pshift2 preserve2 (sr_parameters res1.1) use2)
  = sr_Pshift res1.1 ∧
  sr_Pshift res2.1 = sr_Pshift res1.1.
Proof.
  intros Hsize [en Hen] [sh Hsh] r1 Hhandled HapplyAll res1 r2 Hback res2.
  subst res2. rewrite HandleGlobalShift_narrow by done. fold r2.
  subst res1. rewrite HandleGlobalShift_narrow in * by done. fold r1 in r2, Hback |- *.
  cbn [fst snd sr_Pshift sr_parameters] in *.
  rewrite Hhandled, HapplyAll in *. unfold HandleGlobalShift_save in *.
  rewrite Hen, Hsh in *. by split.
Qed.

End TwoCalls.

(** * The claims on concrete inputs *)

Module Examples.

Import Fixtures.

(** "asc", "Asc" and "ASC" are one extension. *)
Example toUpper_asc :
  QString.toUpper "asc" = "ASC" ∧ QString.toUpper "Asc" = "ASC".
Proof. done. Qed.

(** binFilter, asciiFilter and xyzFilter registered in this order: both
    asciiFilter and xyzFilter load "xyz", the one registered first wins. *)
Example FindBestFilterForExtension_xyz :
  this <$> (FindBestFilterForExtension "xyz" three_filters).1 = Some 2%nat ∧
  this <$> (FindBestFilterForExtension "Bin" three_filters).1 = Some 1%nat ∧
  this <$> (FindBestFilterForExtension "ply" three_filters).1 = None.
Proof. done. Qed.

(** The example of the specification: scan.asc with two entities. *)
Example LoadFromFile_scan_asc :
  (@LoadFromFile float_build "/data/scan.asc" fresh_parameters
     (Some asciiFilter) two_filters).1
  = {| lr_container :=
         Some (HObject "scan.asc (/data)" [HObject "scan" []; HObject "scan_cloud" []]);
       lr_result := CC_FERR_NO_ERROR;
       lr_parameters := set_sessionStart true fresh_parameters |}.
Proof. done. Qed.

(** Saving to a name without extension adds the default one. *)
Example SaveToFile_default_extension :
  @SaveToFile_completeFileName float_build "/data/out" binFilter = "/data/out.bin".
Proof. done. Qed.

End Examples.

(** ** Each theorem above at an input that meets its hypotheses *)

(** Registering asciiRival next to asciiFilter is refused: the registry
    keeps its two filters.  Registering xyzFilter is accepted. *)
Lemma Register_keeps_registry_unique_witness :
  Register_refused (s_ioFilters Fixtures.two_filters) (Some Fixtures.asciiRival) ∧
  s_ioFilters (Register (Some Fixtures.asciiRival) Fixtures.two_filters).2
  = [Fixtures.binFilter; Fixtures.asciiFilter] ∧
  s_ioFilters (Register (Some Fixtures.asciiFilter) Fixtures.two_filters).2
  = [Fixtures.binFilter; Fixtures.asciiFilter] ∧
  s_ioFilters (Register None Fixtures.two_filters).2
  = [Fixtures.binFilter; Fixtures.asciiFilter].
Proof.
  assert (Register_refused (s_ioFilters Fixtures.two_filters) (Some Fixtures.asciiRival))
    as Hrival.
  { right. exists Fixtures.asciiFilter,
      "ASCII cloud (*.txt *.asc *.neu *.xyz *.pts *.csv)"%string.
    split_and!.
    - apply elem_of_cons. right. apply elem_of_cons. by left.
    - apply elem_of_cons. right. apply elem_of_cons. by left.
    - apply elem_of_cons. by left. }
  assert (Register_refused (s_ioFilters Fixtures.two_filters) (Some Fixtures.asciiFilter))
    as Hsame.
  { left. exists Fixtures.asciiFilter. split; [|reflexivity].
    apply elem_of_cons. right. apply elem_of_cons. by left. }
  split_and!.
  - exact Hrival.
  - exact (proj1 (proj1 (Register_keeps_registry_unique Fixtures.two_filters
                           (Some Fixtures.asciiRival)) Hrival)).
  - exact (proj1 (proj1 (Register_keeps_registry_unique Fixtures.two_filters
                           (Some Fixtures.asciiFilter)) Hsame)).
  - exact (proj1 (proj1 (Register_keeps_registry_unique Fixtures.two_filters None) I)).
Defined.

Lemma FindBestFilterForExtension_first_registered_witness :
  (FindBestFilterForExtension "xyz" Fixtures.three_filters).1 = Some Fixtures.asciiFilter.
Proof.
  apply (proj1 (proj2 (FindBestFilterForExtension_first_registered
                         Fixtures.three_filters "xyz"))).
  exists 1%nat. split_and!; [reflexivity | reflexivity |].
  intros j g Hj Hlt. destruct j as [|j]; [|lia].
  injection Hj as <-. reflexivity.
Defined.

Lemma LoadFromFile_missing_file_short_circuits_witness :
  exists_ (Fixtures.files "/data/missing.asc") = false ∧
  let res := @LoadFromFile Fixtures.float_build "/data/missing.asc"
               Fixtures.fresh_parameters (Some Fixtures.asciiFilter) Fixtures.two_filters in
  lr_result res.1 = CC_FERR_CONSOLE_ERROR ∧
  lr_container res.1 = None ∧
  loadFile_calls (trace res.2) = [] ∧
  s_sessionCounter res.2 = 0.
Proof.
  split; [reflexivity|].
  apply (proj1 (@LoadFromFile_missing_file_short_circuits Fixtures.float_build
                  Fixtures.two_filters "/data/missing.asc" Fixtures.fresh_parameters)).
  right. reflexivity.
Defined.

Lemma LoadFromFile_empty_result_is_null_witness :
  let res := @LoadFromFile Fixtures.float_build "/data/scan.asc"
               Fixtures.fresh_parameters (Some Fixtures.emptyFilter) Fixtures.two_filters in
  lr_result res.1 = CC_FERR_NO_ERROR ∧ lr_container res.1 = None.
Proof.
  apply (@LoadFromFile_empty_result_is_null Fixtures.float_build Fixtures.two_filters
           "/data/scan.asc" Fixtures.fresh_parameters Fixtures.emptyFilter
           CC_FERR_NO_ERROR (HObject "unnamed" [])
           (set_sessionStart true Fixtures.fresh_parameters));
    reflexivity.
Defined.

Lemma filter_exceptions_are_contained_witness :
  (let res := @LoadFromFile Fixtures.float_build "/data/scan.asc"
                Fixtures.fresh_parameters (Some Fixtures.throwingFilter)
                Fixtures.two_filters in
   lr_result res.1 = CC_FERR_CONSOLE_ERROR ∧ lr_container res.1 = None).
Proof.
  apply (proj1 (@filter_exceptions_are_contained Fixtures.float_build Fixtures.two_filters
                  "/data/scan.asc" Fixtures.throwingFilter
                  (std_exception "std::bad_alloc"))
           Fixtures.fresh_parameters
           (HObject "unnamed" [HObject "unnamed" []])
           (set_sessionStart true Fixtures.fresh_parameters));
    reflexivity.
Defined.

Lemma LoadFromFile_renames_root_and_children_witness :
  ∃ children',
    lr_container (@LoadFromFile Fixtures.float_build "/data/scan.asc"
                    Fixtures.fresh_parameters (Some Fixtures.asciiFilter)
                    Fixtures.two_filters).1
    = Some (HObject "scan.asc (/data)" children') ∧
    length children' = 2%nat.
Proof.
  destruct (@LoadFromFile_renames_root_and_children Fixtures.float_build
              Fixtures.two_filters "/data/scan.asc" Fixtures.fresh_parameters
              Fixtures.asciiFilter CC_FERR_NO_ERROR
              (HObject "unnamed" [HObject "unnamed" []; HObject "unnamed_cloud" []])
              (set_sessionStart true Fixtures.fresh_parameters)
              eq_refl eq_refl)
    as (children' & Hroot & Hchildren); [discriminate|].
  exists children'. split; [exact Hroot|].
  symmetry. exact (Forall2_length _ _ _ Hchildren).
Defined.

Lemma sessionStart_marks_first_load_after_reset_witness :
  let reqs := λ _ : N, mkLoadRequest "/data/scan.asc" Fixtures.fresh_parameters
                         Fixtures.asciiFilter in
  let w0 := (ResetSesionCounter Fixtures.two_filters).2 in
  @sessionStart_of_load Fixtures.float_build reqs w0 0 = Some true ∧
  @sessionStart_of_load Fixtures.float_build reqs w0 1 = Some false.
Proof.
  intros reqs w0.
  destruct (@sessionStart_marks_first_load_after_reset Fixtures.float_build reqs
              Fixtures.two_filters (λ k, eq_refl))
    as (_ & _ & Hfirst & Hnext & _).
  split; [exact Hfirst|]. apply Hnext; [reflexivity | reflexivity].
Defined.

Lemma HandleGlobalShift_full_precision_never_shifts_witness :
  let res := @HandleGlobalShift Fixtures.double_build Fixtures.P2 Fixtures.zero false
               Fixtures.fresh_parameters false Fixtures.two_filters in
  sr_return res.1 = false ∧
  sr_parameters res.1 = Fixtures.fresh_parameters ∧
  sr_Pshift res.1 = Fixtures.zero ∧
  res.2 = Fixtures.two_filters.
Proof.
  apply (proj1 (@HandleGlobalShift_full_precision_never_shifts Fixtures.double_build
                  Fixtures.two_filters Fixtures.P2 Fixtures.zero false
                  Fixtures.fresh_parameters false)).
  vm_compute. discriminate.
Defined.

Lemma HandleGlobalShift_saves_only_with_both_slots_witness :
  let res := @HandleGlobalShift Fixtures.float_build_recentring Fixtures.P2 Fixtures.zero
               false Fixtures.slotless_parameters false Fixtures.two_filters in
  sr_return res.1 = true ∧
  sr_Pshift res.1 = Fixtures.P2 ∧
  sr_parameters res.1 = Fixtures.slotless_parameters.
Proof.
  destruct (@HandleGlobalShift_saves_only_with_both_slots Fixtures.float_build_recentring
              Fixtures.two_filters Fixtures.P2 Fixtures.zero false
              Fixtures.slotless_parameters false eq_refl eq_refl eq_refl)
    as (Hret & Hshift & _ & Hnull & _).
  split_and!; [exact Hret | exact Hshift |].
  apply Hnull. right. reflexivity.
Defined.

Lemma HandleGlobalShift_offers_active_shift_witness :
  let res := @HandleGlobalShift Fixtures.float_build Fixtures.P2 Fixtures.zero false
               Fixtures.shifted_parameters false Fixtures.two_filters in
  sr_Pshift res.1 = Fixtures.P1 ∧
  sr_preserveCoordinateShift res.1 = true ∧
  sr_parameters res.1 = Fixtures.shifted_parameters.
Proof.
  apply (proj2 (proj2 (@HandleGlobalShift_offers_active_shift Fixtures.float_build
                         Fixtures.two_filters Fixtures.P2 Fixtures.zero Fixtures.P1 false
                         Fixtures.shifted_parameters false eq_refl eq_refl))).
  right. split; reflexivity.
Defined.

(** ** Inputs at which a sentence of the specification, read as written,
       does not describe the code *)

(** C1 as written.  A session in which Handle takes a new shift whatever it
    is offered: the first call saves the shift P1 for all entities; the
    second call, made with that shift active, reports P2 and not P1, and
    the preserve flag it reports is not the stored one either. *)
Lemma HandleGlobalShift_active_shift_replaced :
  let res1 := @HandleGlobalShift Fixtures.float_build_recentring Fixtures.P1 Fixtures.zero
                false Fixtures.fresh_parameters false Fixtures.two_filters in
  let stored := sr_parameters res1.1 in
  let res2 := @HandleGlobalShift Fixtures.float_build_recentring Fixtures.P2 Fixtures.zero
                false stored false res1.2 in
  sr_return res1.1 = true ∧
  shiftAlreadyEnabled stored = true ∧
  coordinatesShift stored = Some Fixtures.P1 ∧
  preserveShiftOnSave stored = true ∧
  sr_Pshift res2.1 = Fixtures.P2 ∧
  sr_Pshift res2.1 ≠ Fixtures.P1 ∧
  sr_preserveCoordinateShift res2.1 ≠ preserveShiftOnSave stored.
Proof. vm_compute. split_and!; try reflexivity; discriminate. Qed.

(** C5 as written.  An entity named "unnamed.vertices (unnamed)" loaded from
    scan.asc: the code replaces both occurrences, the sentence only the
    leading one. *)
Lemma LoadFromFile_replaces_later_occurrences :
  let res := @LoadFromFile Fixtures.float_build "/data/scan.asc" Fixtures.fresh_parameters
               (Some Fixtures.meshFilter) Fixtures.two_filters in
  lr_container res.1
  = Some (HObject "scan.asc (/data)" [HObject "scan.vertices (scan)" []]) ∧
  spec_child_name "scan" "unnamed.vertices (unnamed)" = "scan.vertices (unnamed)" ∧
  lr_container res.1
  ≠ Some (HObject "scan.asc (/data)"
            [HObject (spec_child_name "scan" "unnamed.vertices (unnamed)") []]).
Proof. vm_compute. split_and!; try reflexivity; discriminate. Qed.

(** C6 as written.  2^32 valid loads after a reset bring the counter back to
    0: load number 2^32 (counting from 0), which is not the first of the
    session, sees sessionStart = true. *)
Lemma sessionStart_true_after_wrap :
  let reqs := λ _ : N, mkLoadRequest "/data/scan.asc" Fixtures.fresh_parameters
                         Fixtures.asciiFilter in
  let w0 := (ResetSesionCounter initial_World).2 in
  spec_sessionStart 4294967296 = false ∧
  s_sessionCounter (@after_loads Fixtures.float_build reqs w0 4294967296) = 0 ∧
  @sessionStart_of_load Fixtures.float_build reqs w0 4294967296 = Some true.
Proof.
  intros reqs w0. split_and!.
  - reflexivity.
  - rewrite (@counter_after_loads Fixtures.float_build reqs w0 4294967296 (λ k, eq_refl) eq_refl).
    reflexivity.
  - rewrite (@sessionStart_of_load_value Fixtures.float_build reqs w0 4294967296
               (λ k, eq_refl) eq_refl).
    reflexivity.
Qed.

(** * Further properties of FileIOFilter.cpp *)

(** ** Registry: lookups, registrations one after the other, clearing *)

Lemma GetFilter_loop_list_find (fileFilter : string) (onImport : bool)
    (it : list FileIOFilter) :
  GetFilter_loop fileFilter onImport it
  = snd <$> list_find (λ f, fileFilter ∈ getFileFilters f onImport) it.
Proof.
  induction it as [|f it IH]; [done|]. cbn.
  destruct (QStringList.contains (getFileFilters f onImport) fileFilter) eqn:Hf.
  - rewrite decide_True; [done|]. by apply contains_elem_of.
  - rewrite decide_False by (by apply contains_false). rewrite IH.
    by destruct (list_find _ it) as [[i g]|].
Qed.

Lemma isEmpty_true (s : string) : QString.isEmpty s = true ↔ s = ""%string.
Proof. by destruct s. Qed.

Lemma isEmpty_false (s : string) : QString.isEmpty s = false ↔ s ≠ ""%string.
Proof. by destruct s. Qed.

(** X1.  GetFilter returns the first registered filter whose list of file
    filters (the import list or the export list, as [onImport] says) holds
    the given string, and a null pointer when the string is empty or no
    registered filter lists it.  The program state is not touched. *)
Theorem GetFilter_first_registered (w : World) (fileFilter : string) (onImport : bool) :
  let found := (GetFilter fileFilter onImport w).1 in
  (GetFilter fileFilter onImport w).2 = w ∧
  (∀ f, found = Some f ↔
        fileFilter ≠ ""%string ∧
        ∃ i, s_ioFilters w !! i = Some f ∧ fileFilter ∈ getFileFilters f onImport ∧
             ∀ j g, s_ioFilters w !! j = Some g → (j < i)%nat →
                    fileFilter ∉ getFileFilters g onImport) ∧
  (found = None ↔
        fileFilter = ""%string ∨
        Forall (λ g, fileFilter ∉ getFileFilters g onImport) (s_ioFilters w)).
Proof.
  intros found. subst found. rewrite GetFilter_run. cbn [fst snd].
  split; [done|]. destruct (QString.isEmpty fileFilter) eqn:Hempty; cbn [negb].
  - apply isEmpty_true in Hempty as ->. split; [|by split; [left|]].
    intros f. split; [done | by intros [[] _]].
  - apply isEmpty_false in Hempty. rewrite GetFilter_loop_list_find. split.
    + intros f. split.
      * destruct (list_find _ _) as [[i g]|] eqn:Hfind; [|done].
        intros [= ->]. apply list_find_Some in Hfind as (Hi & Hf & Hbefore).
        split; [done|]. exists i. eauto.
      * intros (_ & i & Hi & Hf & Hbefore).
        assert (list_find (λ g, fileFilter ∈ getFileFilters g onImport) (s_ioFilters w)
                = Some (i, f)) as ->; [|done].
        apply list_find_Some. eauto.
    + rewrite fmap_None, list_find_None. split; [by right | by intros [?|?]].
Qed.

(** The two lookups on a registry that has grown at its end. *)
Lemma GetFilter_loop_app (fileFilter : string) (onImport : bool)
    (it added : list FileIOFilter) :
  GetFilter_loop fileFilter onImport (it ++ added)
  = match GetFilter_loop fileFilter onImport it with
    | Some f => Some f
    | None => GetFilter_loop fileFilter onImport added
    end.
Proof.
  induction it as [|f it IH]; [done|]. cbn.
  by destruct (QStringList.contains _ _).
Qed.

Lemma FindBestFilterForExtension_loop_app (upperExt : string)
    (it added : list FileIOFilter) :
  FindBestFilterForExtension_loop upperExt (it ++ added)
  = match FindBestFilterForExtension_loop upperExt it with
    | Some f => Some f
    | None => FindBestFilterForExtension_loop upperExt added
    end.
Proof.
  induction it as [|f it IH]; [done|]. cbn.
  by destruct (canLoadExtension f upperExt).
Qed.

Lemma GetFilter_loop_None (fileFilter : string) (onImport : bool)
    (it : list FileIOFilter) :
  GetFilter_loop fileFilter onImport it = None ↔
  ∀ g, g ∈ it → fileFilter ∉ getFileFilters g onImport.
Proof.
  rewrite GetFilter_loop_list_find, fmap_None, list_find_None. apply Forall_forall.
Qed.

(** Register appends at most its argument. *)
Lemma Register_extends (w : World) (filter : Shared) :
  s_ioFilters (Register filter w).2 = s_ioFilters w ∨
  ∃ f, filter = Some f ∧ ¬ Register_refused (s_ioFilters w) filter ∧
       s_ioFilters (Register filter w).2 = s_ioFilters w ++ [f].
Proof.
  destruct filter as [f|]; [|by left].
  destruct (Register_loop_spec f (s_ioFilters w) w) as (_ & _ & Hb).
  destruct (Register_loop f (s_ioFilters w) w).1 eqn:Hloop.
  - left. apply Register_refused_unchanged. by apply refused_iff_collides, Hb.
  - assert (¬ Register_refused (s_ioFilters w) (Some f)) as Hok.
    { rewrite refused_iff_collides. intros Hc%Hb. discriminate. }
    right. exists f. split_and!; [done..|]. by apply Register_accepted_appends.
Qed.

(** X2.  An accepted registration can be looked up at once: every non-empty
    import file filter of the filter just registered resolves to it. *)
Theorem Register_then_GetFilter (w : World) (f : FileIOFilter) (fileFilter : string) :
  ¬ Register_refused (s_ioFilters w) (Some f) →
  fileFilter ∈ importFilters f →
  fileFilter ≠ ""%string →
  (GetFilter fileFilter true (Register (Some f) w).2).1 = Some f.
Proof.
  intros Hok Hin Hne. rewrite GetFilter_run. cbn [fst].
  apply isEmpty_false in Hne as ->. cbn [negb].
  rewrite Register_accepted_appends by done. rewrite GetFilter_loop_app.
  assert (GetFilter_loop fileFilter true (s_ioFilters w) = None) as ->.
  { apply GetFilter_loop_None. intros g Hg Hshared. apply Hok. right.
    by exists g, fileFilter. }
  cbn [GetFilter_loop]. unfold importFilters in Hin.
  by apply contains_elem_of in Hin as ->.
Qed.

(** X3.  On a registry without duplicates an import file filter names its
    filter: whatever the position of a registered filter, each of its
    non-empty import file filters resolves to that filter. *)
Theorem GetFilter_import_unambiguous (w : World) (i : nat) (g : FileIOFilter)
    (fileFilter : string) :
  registry_unique (s_ioFilters w) →
  s_ioFilters w !! i = Some g →
  fileFilter ∈ importFilters g →
  fileFilter ≠ ""%string →
  (GetFilter fileFilter true w).1 = Some g.
Proof.
  intros [_ Hdisj] Hi Hin Hne. rewrite GetFilter_run. cbn [fst].
  apply isEmpty_false in Hne as ->. cbn [negb].
  rewrite GetFilter_loop_list_find.
  destruct (list_find _ _) as [[j g']|] eqn:Hfind.
  - apply list_find_Some in Hfind as (Hj & Hin' & _). cbn.
    destruct (decide (j = i)) as [->|Hji]; [congruence|].
    by destruct (Hdisj j i g' g fileFilter).
  - apply list_find_None in Hfind. rewrite Forall_lookup in Hfind.
    by destruct (Hfind i g Hi).
Qed.

(** X4.  A registration never redirects a lookup that succeeded before it:
    the filter found for an extension, or for a file filter string, is the
    same after any call of Register. *)
Theorem Register_keeps_resolution (w : World) (filter : Shared) (g : FileIOFilter) :
  (∀ ext, (FindBestFilterForExtension ext w).1 = Some g →
          (FindBestFilterForExtension ext (Register filter w).2).1 = Some g) ∧
  (∀ fileFilter onImport,
          (GetFilter fileFilter onImport w).1 = Some g →
          (GetFilter fileFilter onImport (Register filter w).2).1 = Some g).
Proof.
  assert (∃ added, s_ioFilters (Register filter w).2 = s_ioFilters w ++ added)
    as [added Hadded].
  { destruct (Register_extends w filter) as [Heq|(f & _ & _ & Heq)].
    - exists []. by rewrite app_nil_r.
    - by exists [f]. }
  split.
  - intros ext. rewrite !FindBestFilterForExtension_run. cbn [fst].
    rewrite Hadded, FindBestFilterForExtension_loop_app. by intros ->.
  - intros fileFilter onImport. rewrite !GetFilter_run. cbn [fst].
    destruct (negb (QString.isEmpty fileFilter)); [|done].
    rewrite Hadded, GetFilter_loop_app. by intros ->.
Qed.

(** X5.  Registering a filter a second time changes nothing: after one call
    of Register a second call with the same argument leaves the registry as
    the first call left it. *)
Theorem Register_twice (w : World) (filter : Shared) :
  s_ioFilters (Register filter (Register filter w).2).2
  = s_ioFilters (Register filter w).2.
Proof.
  apply Register_refused_unchanged.
  destruct (Register_extends w filter) as [Heq|(f & -> & Hok & Heq)].
  - rewrite Heq. destruct filter as [f|]; [|done].
    destruct (Register_loop_spec f (s_ioFilters w) w) as (_ & _ & Hb).
    destruct (Register_loop f (s_ioFilters w) w).1 eqn:Hloop.
    + by apply refused_iff_collides, Hb.
    + exfalso. assert (¬ Register_refused (s_ioFilters w) (Some f)) as Hok.
      { rewrite refused_iff_collides. intros Hc%Hb. discriminate. }
      rewrite (Register_accepted_appends w f Hok) in Heq.
      apply (f_equal length) in Heq. rewrite length_app in Heq. cbn in Heq. lia.
  - rewrite Heq. left. exists f. split; [|done].
    apply elem_of_app. right. by apply list_elem_of_singleton.
Qed.

Lemma UnregisterAll_loop_spec (it : list FileIOFilter) (w : World) :
  s_ioFilters (UnregisterAll_loop it w).2 = s_ioFilters w ∧
  s_sessionCounter (UnregisterAll_loop it w).2 = s_sessionCounter w ∧
  trace (UnregisterAll_loop it w).2
  = trace w ++ ((λ f, call_unregister (this f)) <$> it).
Proof.
  revert w. induction it as [|f it IH]; intros w.
  - cbn. by rewrite app_nil_r.
  - cbn [UnregisterAll_loop]. rewrite bind_run. cbn [emit fst snd].
    destruct (IH {| s_ioFilters := s_ioFilters w;
                    s_sessionCounter := s_sessionCounter w;
                    trace := trace w ++ [call_unregister (this f)] |})
      as (-> & -> & ->).
    cbn [s_ioFilters s_sessionCounter trace]. by rewrite <- app_assoc.
Qed.

(** X6.  UnregisterAll calls unregister on every registered filter, once
    each and in the order of registration, and leaves the registry empty;
    the session counter is not touched.  Afterwards no lookup finds a
    filter, a second UnregisterAll changes nothing, and any filter, also
    one that was registered before, is accepted by Register. *)
Theorem UnregisterAll_releases_and_clears (w : World) :
  let w' := (UnregisterAll w).2 in
  s_ioFilters w' = [] ∧
  s_sessionCounter w' = s_sessionCounter w ∧
  trace w' = trace w ++ ((λ f, call_unregister (this f)) <$> s_ioFilters w) ∧
  (∀ fileFilter onImport, (GetFilter fileFilter onImport w').1 = None) ∧
  (∀ ext, (FindBestFilterForExtension ext w').1 = None) ∧
  (UnregisterAll w').2 = w' ∧
  (∀ f, s_ioFilters (Register (Some f) w').2 = [f]).
Proof.
  intros w'.
  destruct (UnregisterAll_loop_spec (s_ioFilters w) w) as (_ & Hc & Ht).
  assert (w' = {| s_ioFilters := [];
                  s_sessionCounter := s_sessionCounter w;
                  trace := trace w ++ ((λ f, call_unregister (this f)) <$> s_ioFilters w) |})
    as ->.
  { subst w'. unfold UnregisterAll. rewrite !bind_run.
    cbn [get_ioFilters set_ioFilters fst snd]. by rewrite Hc, Ht. }
  split_and!; try done.
  intros fileFilter onImport. rewrite GetFilter_run. cbn [fst s_ioFilters].
  by destruct (negb _).
Qed.

(** ** Registrations one after the other *)

Lemma Register_unique (w : World) (filter : Shared) :
  registry_unique (s_ioFilters w) →
  registry_unique (s_ioFilters (Register filter w).2).
Proof.
  intros Huniq.
  destruct (Register_extends w filter) as [Heq|(f & Hf & Hok & Heq)]; rewrite Heq; [done|].
  subst filter. apply registry_unique_snoc; [done|]. by rewrite <- refused_iff_collides.
Qed.

Lemma registry_unique_nil : registry_unique [].
Proof.
  split; [constructor|]. intros i j f g s Hi. by rewrite lookup_nil in Hi.
Qed.

Lemma registry_unique_accepts (reg rest : list FileIOFilter) (f : FileIOFilter) :
  registry_unique (reg ++ f :: rest) → ¬ Register_refused reg (Some f).
Proof.
  intros [Hnd Hdisj] [(g & Hg & Hthis)|(g & s & Hg & Hsf & Hsg)].
  - rewrite fmap_app, fmap_cons in Hnd. apply NoDup_app in Hnd as (_ & Hnot & _).
    apply (Hnot (this g)); [by apply list_elem_of_fmap_2|].
    rewrite Hthis. by left.
  - apply list_elem_of_lookup_1 in Hg as [i Hi].
    apply (Hdisj (length reg) i f g s); [| |  | done | done].
    + by rewrite lookup_app_r, Nat.sub_diag.
    + by apply lookup_app_l_Some.
    + apply lookup_lt_Some in Hi. lia.
Qed.

Lemma Register_all_frame (filters : list Shared) (w : World) :
  s_sessionCounter (Register_all filters w).2 = s_sessionCounter w.
Proof.
  revert w. induction filters as [|filter filters IH]; intros w; [done|].
  cbn [Register_all]. rewrite bind_run, IH. apply Register_counter.
Qed.

Lemma Register_all_unique (filters : list Shared) (w : World) :
  registry_unique (s_ioFilters w) →
  registry_unique (s_ioFilters (Register_all filters w).2).
Proof.
  revert w. induction filters as [|filter filters IH]; intros w Huniq; [done|].
  cbn [Register_all]. rewrite bind_run. by apply IH, Register_unique.
Qed.

Lemma Register_all_accepts (fs : list FileIOFilter) (w : World) :
  registry_unique (s_ioFilters w ++ fs) →
  s_ioFilters (Register_all (Some <$> fs) w).2 = s_ioFilters w ++ fs.
Proof.
  revert w. induction fs as [|f fs IH]; intros w Huniq.
  - cbn. by rewrite app_nil_r.
  - cbn [fmap list_fmap Register_all]. rewrite bind_run.
    pose proof (Register_accepted_appends w f (registry_unique_accepts _ _ _ Huniq)) as Hreg.
    rewrite IH; rewrite Hreg, <- app_assoc; done.
Qed.

Lemma InitInternalFilters_Register_all (b : InternalFilters) (w : World) :
  (InitInternalFilters b w).2 = (Register_all (Some <$> internal_filters b) w).2.
Proof.
  unfold InitInternalFilters, internal_filters.
  destruct (CC_DXF_SUPPORT b), (CC_SHP_SUPPORT b), (CC_GDAL_SUPPORT b);
    cbn [app fmap list_fmap Register_all]; rewrite !bind_run; done.
Qed.

(** X7.  InitInternalFilters registers the internal filters in the order of
    its calls: Bin, Ascii, Ply, then Dxf, Shp and RasterGrid where the build
    supports them, then Image and DepthMap.  When these filters and the
    registered ones have pairwise distinct addresses and import file
    filters, the registry afterwards is the old one followed by all of them
    in that order.  In every case a registry without duplicates stays
    without duplicates and the session counter keeps its value. *)
Theorem InitInternalFilters_registers_in_order (b : InternalFilters) (w : World) :
  (registry_unique (s_ioFilters w ++ internal_filters b) →
     s_ioFilters (InitInternalFilters b w).2 = s_ioFilters w ++ internal_filters b) ∧
  (registry_unique (s_ioFilters w) →
     registry_unique (s_ioFilters (InitInternalFilters b w).2)) ∧
  s_sessionCounter (InitInternalFilters b w).2 = s_sessionCounter w.
Proof.
  rewrite InitInternalFilters_Register_all. split_and!.
  - apply Register_all_accepts.
  - apply Register_all_unique.
  - apply Register_all_frame.
Qed.

Lemma UnregisterAll_registry (w : World) : s_ioFilters (UnregisterAll w).2 = [].
Proof. unfold UnregisterAll. by rewrite !bind_run. Qed.

(** X8.  The registry has no duplicates in any state the program can
    reach: whatever calls of Register and UnregisterAll are made, in
    whatever order and with whatever arguments, a registry in which no
    address occurs twice and no two filters share an import file filter is
    again such a registry afterwards. *)
Theorem registry_calls_keep_unique (cs : list RegistryCall) (w : World) :
  registry_unique (s_ioFilters w) →
  registry_unique (s_ioFilters (registry_calls cs w).2).
Proof.
  revert w. induction cs as [|c cs IH]; intros w Huniq; [done|].
  cbn [registry_calls]. rewrite bind_run. apply IH.
  destruct c as [filter|]; cbn [registry_call].
  - by apply Register_unique.
  - rewrite UnregisterAll_registry. apply registry_unique_nil.
Qed.

(** [registry_uniqueb] decides [registry_unique]. *)
Lemma shares_import_false (f g : FileIOFilter) :
  shares_import f g = false → ∀ s, s ∈ importFilters f → s ∉ importFilters g.
Proof.
  unfold shares_import. intros Hno s Hsf Hsg.
  assert (existsb (QStringList.contains (importFilters g)) (importFilters f) = true) as Hyes.
  { apply existsb_exists. exists s. split; [by apply list_elem_of_In|].
    by apply contains_elem_of. }
  congruence.
Qed.

Lemma registry_uniqueb_sound (reg : list FileIOFilter) :
  registry_uniqueb reg = true → registry_unique reg.
Proof.
  induction reg as [|f reg IH]; [intros _; apply registry_unique_nil|].
  cbn [registry_uniqueb]. intros [Hhead Htail]%andb_true_iff.
  destruct (IH Htail) as [Hnd Hdisj]. rewrite forallb_forall in Hhead.
  assert (∀ g, g ∈ reg → this g ≠ this f ∧
                         (∀ s, s ∈ importFilters f → s ∉ importFilters g) ∧
                         (∀ s, s ∈ importFilters g → s ∉ importFilters f)) as Hf.
  { intros g Hg%list_elem_of_In. specialize (Hhead g Hg).
    apply andb_true_iff in Hhead as [[Ha Hb]%andb_true_iff Hc].
    apply negb_true_iff in Ha, Hb, Hc. split_and!.
    - by apply Nat.eqb_neq.
    - by apply shares_import_false.
    - by apply shares_import_false. }
  split.
  - rewrite fmap_cons. apply NoDup_cons. split; [|done].
    intros (g & Heq & Hg)%list_elem_of_fmap. by destruct (Hf g Hg) as (? & _).
  - intros i j g1 g2 s Hi Hj Hij Hs1 Hs2. destruct i as [|i], j as [|j]; cbn in Hi, Hj.
    + done.
    + injection Hi as <-. apply list_elem_of_lookup_2 in Hj.
      by destruct (Hf g2 Hj) as (_ & H1 & _); destruct (H1 s).
    + injection Hj as <-. apply list_elem_of_lookup_2 in Hi.
      by destruct (Hf g1 Hi) as (_ & _ & H2); destruct (H2 s).
    + apply (Hdisj i j g1 g2 s); [done | done | lia | done | done].
Qed.

(** ** Diagnostic messages *)

Lemma DisplayErrorMessage_errorStr_inj (e1 e2 : CC_FILE_ERROR) :
  DisplayErrorMessage_errorStr e1 = DisplayErrorMessage_errorStr e2 → e1 = e2.
Proof. destruct e1, e2; cbn; intros Heq; try reflexivity; discriminate Heq. Qed.

Lemma append_inv_head (p s1 s2 : string) : p +:+ s1 = p +:+ s2 → s1 = s2.
Proof.
  induction p as [|c p IH]; [done|]. cbn. intros [= Heq]. by apply IH.
Qed.

(** X9.  DisplayErrorMessage writes nothing for CC_FERR_NO_ERROR and
    exactly one line for any other code: "An error occurred while <action>
    '<filename>': <phrase>", as a warning for CC_FERR_CANCELED_BY_USER and
    as an error otherwise.  The phrase is never empty and no two codes have
    the same phrase, so the line tells the code.  Registry and session
    counter are not touched. *)
Theorem DisplayErrorMessage_one_line (err : CC_FILE_ERROR) (action filename : string)
    (w : World) :
  let w' := (DisplayErrorMessage err action filename w).2 in
  s_ioFilters w' = s_ioFilters w ∧
  s_sessionCounter w' = s_sessionCounter w ∧
  (err = CC_FERR_NO_ERROR → w' = w) ∧
  (err ≠ CC_FERR_NO_ERROR →
     ∃ phrase,
       phrase ≠ ""%string ∧
       trace w' = trace w ++
         [(if CC_FILE_ERROR_eqb err CC_FERR_CANCELED_BY_USER
           then ccLog_Warning else ccLog_Error)
            ("An error occurred while " +:+ action +:+ " '" +:+ filename +:+ "': "
             +:+ phrase)]) ∧
  (∀ err', trace (DisplayErrorMessage err' action filename w).2 = trace w' → err' = err).
Proof.
  intros w'. subst w'. split_and!.
  - by destruct err.
  - by destruct err.
  - by intros ->.
  - intros Hne. destruct err; try done; eexists; (split; [|reflexivity]); discriminate.
  - intros err' Heq. apply DisplayErrorMessage_errorStr_inj.
    unfold DisplayErrorMessage in Heq.
    destruct (DisplayErrorMessage_errorStr err') as [[phrase' warning']|],
             (DisplayErrorMessage_errorStr err) as [[phrase warning]|].
    + assert (∀ (b : bool) (m : string),
                trace ((if b then emit (ccLog_Warning m) else emit (ccLog_Error m)) w).2
                = trace w ++ [if b then ccLog_Warning m else ccLog_Error m]) as Hemit
        by (by intros []).
      rewrite !Hemit in Heq. apply app_inv_head in Heq.
      destruct warning', warning; try discriminate Heq;
        injection Heq as Heq; repeat apply append_inv_head in Heq; by subst.
    + destruct warning'; cbn in Heq; apply (f_equal length) in Heq;
        rewrite length_app in Heq; cbn in Heq; lia.
    + destruct warning; cbn in Heq; apply (f_equal length) in Heq;
        rewrite length_app in Heq; cbn in Heq; lia.
    + done.
Qed.

(** ** Loading: what the caller gets, what is logged, which filter is used *)

Section MoreLoadProperties.

Context `{Collaborators}.

(** X10.  LoadFromFile never hands out an empty container.  A container is
    returned only when the file exists and the filter has returned (with
    whatever code, an error code too) leaving at least one child; it then
    has as many children as the filter left, and the code is the one of the
    filter.  A null container comes with CC_FERR_CONSOLE_ERROR, or else with
    the code of a filter that returned without leaving a child. *)
Theorem LoadFromFile_container_never_empty (w : World) (filename : string)
    (loadParameters : LoadParameters) (filter : Shared) :
  let res := LoadFromFile filename loadParameters filter w in
  (∀ c, lr_container res.1 = Some c →
        ccHObject_.getChildrenNumber c ≠ 0%nat ∧
        ∃ f result container loadParameters',
          filter = Some f ∧ exists_ (QFileInfo_ filename) = true ∧
          filter_outcome w filename loadParameters f
          = (Returns result, container, loadParameters') ∧
          lr_result res.1 = result ∧
          ccHObject_.getChildrenNumber c = ccHObject_.getChildrenNumber container) ∧
  (lr_container res.1 = None →
        lr_result res.1 = CC_FERR_CONSOLE_ERROR ∨
        ∃ f result container loadParameters',
          filter = Some f ∧
          filter_outcome w filename loadParameters f
          = (Returns result, container, loadParameters') ∧
          ccHObject_.getChildren container = [] ∧
          lr_result res.1 = result).
Proof.
  intros res.
  destruct filter as [f|]; [destruct (exists_ (QFileInfo_ filename)) eqn:Hex|].
  - destruct (LoadFromFile_valid w filename loadParameters f Hex) as (_ & _ & _ & Hres).
    fold res in Hres.
    destruct (filter_outcome w filename loadParameters f)
      as [[[result|e] container] loadParameters'] eqn:Hout.
    + destruct Hres as (Hr & _ & Hc). rewrite LoadFromFile_finish_spec in Hc.
      destruct container as [n [|child children]]; cbn [ccHObject_.getChildren] in Hc; split.
      * intros c Hsome. congruence.
      * intros _. right. by exists f, result, (HObject n []), loadParameters'.
      * intros c Hsome. rewrite Hc in Hsome. injection Hsome as <-.
        split; [done|].
        exists f, result, (HObject n (child :: children)), loadParameters'.
        split_and!; try done. cbn. by rewrite length_map.
      * intros Hnone. congruence.
    + destruct Hres as (Hr & _ & Hc). split; [intros c Hsome; congruence | by left].
  - destruct (LoadFromFile_invalid w filename loadParameters (Some f) (or_intror Hex))
      as (Hr & Hc & _). fold res in Hr, Hc.
    split; [intros c Hsome; congruence | by left].
  - destruct (LoadFromFile_invalid w filename loadParameters None (or_introl eq_refl))
      as (Hr & Hc & _). fold res in Hr, Hc.
    split; [intros c Hsome; congruence | by left].
Qed.

(** A load with valid input whose filter returns, as one equation. *)
Lemma LoadFromFile_returned (w : World) (filename : string)
    (loadParameters : LoadParameters) (f : FileIOFilter)
    (result : CC_FILE_ERROR) (container : ccHObject) (loadParameters' : LoadParameters) :
  exists_ (QFileInfo_ filename) = true →
  filter_outcome w filename loadParameters f = (Returns result, container, loadParameters') →
  LoadFromFile filename loadParameters (Some f) w
  = ({| lr_container := LoadFromFile_finish (QFileInfo_ filename) container;
        lr_result := result;
        lr_parameters := loadParameters' |},
     {| s_ioFilters := s_ioFilters w;
        s_sessionCounter := (s_sessionCounter w + 1) mod UINT_MODULUS;
        trace := trace w
                   ++ [call_loadFile (this f) filename
                         (parameters_for_filter w loadParameters);
                       load_report_line filename result] |}).
Proof.
  intros Hex Hout. unfold filter_outcome, parameters_for_filter in *.
  unfold LoadFromFile. rewrite Hex. cbn [negb].
  unfold IncreaseSesionCounter, get_sessionCounter, set_sessionCounter.
  rewrite !bind_run. cbn [fst snd ret s_sessionCounter s_ioFilters trace].
  unfold LoadFromFile_try. rewrite !bind_run. cbn [emit fst snd].
  rewrite Hout. cbn [ret fst snd].
  unfold LoadFromFile_report, load_report_line, DisplayErrorMessage.
  destruct result; cbn; by rewrite <- app_assoc.
Qed.

(** X11.  A load whose filter returns writes one line to the log, after the
    call of the filter and nothing else: "File '<filename>' loaded
    successfully" at print level for CC_FERR_NO_ERROR, the phrase of the
    code with the base name of the file otherwise, as a warning when the
    user canceled and as an error for any other code.  A filter that
    returns an error code after having added children has its children
    handed to the caller all the same, renamed like those of a successful
    load. *)
Theorem LoadFromFile_reports_once (w : World) (filename : string)
    (loadParameters : LoadParameters) (f : FileIOFilter)
    (result : CC_FILE_ERROR) (container : ccHObject) (loadParameters' : LoadParameters) :
  exists_ (QFileInfo_ filename) = true →
  filter_outcome w filename loadParameters f = (Returns result, container, loadParameters') →
  let res := LoadFromFile filename loadParameters (Some f) w in
  trace res.2
  = trace w ++ [call_loadFile (this f) filename (parameters_for_filter w loadParameters);
                load_report_line filename result] ∧
  (∃ msg, log_line (load_report_line filename result)
          = Some (match result with
                  | CC_FERR_NO_ERROR => severity_print
                  | CC_FERR_CANCELED_BY_USER => severity_warning
                  | _ => severity_error
                  end, msg)) ∧
  (result = CC_FERR_NO_ERROR →
     load_report_line filename result
     = ccLog_Print ("[I/O] File '" +:+ filename +:+ "' loaded successfully")) ∧
  lr_result res.1 = result ∧
  (ccHObject_.getChildren container ≠ [] →
     ∃ c, lr_container res.1 = Some c ∧
          ccHObject_.getChildren c
          = LoadFromFile_rename_child (QFileInfo_ filename)
              <$> ccHObject_.getChildren container).
Proof.
  intros Hex Hout res. subst res.
  rewrite (LoadFromFile_returned _ _ _ _ _ _ _ Hex Hout). cbn [fst snd trace lr_result lr_container].
  split_and!; [done | | by intros -> | done |].
  - unfold load_report_line. destruct result; cbn; by eexists.
  - intros Hne. rewrite LoadFromFile_finish_spec.
    destruct (ccHObject_.getChildren container) as [|child children]; [done|].
    by eexists.
Qed.

Lemma lc_valid_false (c : LoadCall) :
  lc_valid c = false →
  lc_filter c = None ∨ exists_ (QFileInfo_ (lc_filename c)) = false.
Proof. unfold lc_valid. destruct (lc_filter c); [by right | by left]. Qed.

(** X13.  In any sequence of calls of LoadFromFile, mixing valid input with
    null filters and missing files, the session counter advances by the
    number of calls with valid input (modulo 2^32) and a filter is called
    exactly once for each of them, whatever the filters do (return, fail,
    throw); calls with invalid input count for nothing.  Every call yields
    a result and the registry is not touched. *)
Theorem LoadFromFile_all_counts_valid_calls (cs : list LoadCall) (w : World) :
  0 ≤ s_sessionCounter w < UINT_MODULUS →
  let res := LoadFromFile_all cs w in
  let n := length (filter (λ c, lc_valid c = true) cs) in
  length res.1 = length cs ∧
  s_sessionCounter res.2 = (s_sessionCounter w + Z.of_nat n) mod UINT_MODULUS ∧
  length (loadFile_calls (trace res.2)) = (length (loadFile_calls (trace w)) + n)%nat ∧
  s_ioFilters res.2 = s_ioFilters w.
Proof.
  revert w. induction cs as [|c cs IH]; intros w Hrange res n; subst res n.
  - cbn. rewrite Z.add_0_r, Z.mod_small by done. split_and!; [done | done | lia | done].
  - cbn [LoadFromFile_all]. rewrite !bind_run. cbn [ret fst snd length].
    set (w1 := (LoadFromFile (lc_filename c) (lc_parameters c) (lc_filter c) w).2).
    assert (s_ioFilters w1 = s_ioFilters w ∧
            (if lc_valid c
             then s_sessionCounter w1 = (s_sessionCounter w + 1) mod UINT_MODULUS ∧
                  length (loadFile_calls (trace w1))
                  = S (length (loadFile_calls (trace w)))
             else s_sessionCounter w1 = s_sessionCounter w ∧
                  loadFile_calls (trace w1) = loadFile_calls (trace w))) as (Hreg & Hstep).
    { subst w1. destruct (lc_valid c) eqn:Hvalid.
      - unfold lc_valid in Hvalid. destruct (lc_filter c) as [f|]; [|done].
        destruct (LoadFromFile_valid w (lc_filename c) (lc_parameters c) f Hvalid)
          as (-> & -> & -> & _).
        rewrite length_app. cbn. split_and!; [done | done | lia].
      - apply lc_valid_false in Hvalid.
        by destruct (LoadFromFile_invalid w (lc_filename c) (lc_parameters c) (lc_filter c)
                       Hvalid) as (_ & _ & _ & -> & -> & ->). }
    assert (0 ≤ s_sessionCounter w1 < UINT_MODULUS) as Hrange1.
    { destruct (lc_valid c); destruct Hstep as [-> _]; [|done].
      by apply Z.mod_pos_bound. }
    destruct (IH w1 Hrange1) as (-> & -> & -> & ->).
    rewrite filter_cons.
    destruct (lc_valid c); destruct Hstep as [-> Hcalls]; rewrite Hcalls.
    + rewrite decide_True by done. cbn [length].
      rewrite Z.add_mod_idemp_l by done. split_and!; [done | f_equal; lia | lia | done].
    + rewrite decide_False by done. done.
Qed.

End MoreLoadProperties.

Lemma GetFilter_loop_unique (reg : list FileIOFilter) (i : nat) (g : FileIOFilter)
    (fileFilter : string) :
  registry_unique reg →
  reg !! i = Some g →
  fileFilter ∈ importFilters g →
  GetFilter_loop fileFilter true reg = Some g.
Proof.
  intros [_ Hdisj] Hi Hin. rewrite GetFilter_loop_list_find.
  destruct (list_find _ _) as [[j g']|] eqn:Hfind.
  - apply list_find_Some in Hfind as (Hj & Hin' & _). cbn.
    destruct (decide (j = i)) as [->|Hji]; [congruence|].
    by destruct (Hdisj j i g' g fileFilter).
  - apply list_find_None in Hfind. rewrite Forall_lookup in Hfind.
    by destruct (Hfind i g Hi).
Qed.

Lemma FindBestFilterForExtension_loop_first (reg : list FileIOFilter) (i : nat)
    (g : FileIOFilter) (upperExt : string) :
  reg !! i = Some g →
  canLoadExtension g upperExt = true →
  (∀ j h, reg !! j = Some h → (j < i)%nat → canLoadExtension h upperExt = false) →
  FindBestFilterForExtension_loop upperExt reg = Some g.
Proof.
  intros Hi Hg Hbefore. rewrite FindBestFilterForExtension_loop_list_find.
  assert (list_find (λ f, canLoadExtension f upperExt = true) reg = Some (i, g)) as ->;
    [|done].
  apply list_find_Some. split_and!; [done..|].
  intros j h Hj Hlt. rewrite (Hbefore j h Hj Hlt). discriminate.
Qed.

Section LoadByName.

Context `{Collaborators}.

(** X14.  The overload of LoadFromFile that looks the filter up fails before
    anything else happens when it finds no filter: a file filter string that
    no registered filter lists for import (export lists are not looked at),
    or, without a file filter string, a file name without extension or with
    an extension no registered filter loads.  It then returns
    CC_FERR_CONSOLE_ERROR and a null container, writes one error line, and
    touches neither the parameters nor the session counter nor the
    registry; whether the file exists plays no role. *)
Theorem LoadFromFile_by_name_unresolved (w : World) (filename : string)
    (loadParameters : LoadParameters) (fileFilter : string) :
  (fileFilter ≠ ""%string ∧
   Forall (λ g, fileFilter ∉ importFilters g) (s_ioFilters w)) ∨
  (fileFilter = ""%string ∧ suffix (QFileInfo_ filename) = ""%string) ∨
  (fileFilter = ""%string ∧
   Forall (λ g, canLoadExtension g (QString.toUpper (suffix (QFileInfo_ filename))) = false)
     (s_ioFilters w)) →
  let res := LoadFromFile_by_name filename loadParameters fileFilter w in
  lr_result res.1 = CC_FERR_CONSOLE_ERROR ∧
  lr_container res.1 = None ∧
  lr_parameters res.1 = loadParameters ∧
  s_sessionCounter res.2 = s_sessionCounter w ∧
  s_ioFilters res.2 = s_ioFilters w ∧
  ∃ msg, trace res.2 = trace w ++ [ccLog_Error msg].
Proof.
  intros Hcase res. subst res. unfold LoadFromFile_by_name.
  assert (∀ msg, let res := (run emit (ccLog_Error msg);
                             ret (mkLoadResult None CC_FERR_CONSOLE_ERROR loadParameters)) w in
                 lr_result res.1 = CC_FERR_CONSOLE_ERROR ∧
                 lr_container res.1 = None ∧
                 lr_parameters res.1 = loadParameters ∧
                 s_sessionCounter res.2 = s_sessionCounter w ∧
                 s_ioFilters res.2 = s_ioFilters w ∧
                 ∃ msg', trace res.2 = trace w ++ [ccLog_Error msg']) as Hfail.
  { intros msg. cbn. split_and!; try done. by eexists. }
  destruct Hcase as [[Hne Hnone]|[[-> Hsuffix]|[-> Hnone]]].
  - apply isEmpty_false in Hne as Hempty. rewrite Hempty. cbn [negb].
    rewrite bind_run, GetFilter_run, Hempty. cbn [fst snd negb].
    assert (GetFilter_loop fileFilter true (s_ioFilters w) = None) as ->.
    { apply GetFilter_loop_None. by apply Forall_forall. }
    apply Hfail.
  - cbn [QString.isEmpty negb]. rewrite Hsuffix. cbn [QString.isEmpty]. apply Hfail.
  - cbn [QString.isEmpty negb].
    destruct (QString.isEmpty (suffix (QFileInfo_ filename))); [apply Hfail|].
    rewrite bind_run, FindBestFilterForExtension_run. cbn [fst snd].
    assert (FindBestFilterForExtension_loop
              (QString.toUpper (suffix (QFileInfo_ filename))) (s_ioFilters w) = None) as ->.
    { rewrite FindBestFilterForExtension_loop_list_find, fmap_None, list_find_None.
      eapply Forall_impl; [exact Hnone|]. intros g ->. discriminate. }
    apply Hfail.
Qed.

(** X15.  Which filter the overload loads with.  With a file filter string,
    on a registry without duplicates, it is the registered filter that
    lists the string for import, wherever it stands in the registry and
    whatever the extension of the file.  Without one, it is the first
    registered filter that loads the upper-cased extension of the file.
    The call then does exactly what LoadFromFile does with that filter. *)
Theorem LoadFromFile_by_name_dispatch (w : World) (filename : string)
    (loadParameters : LoadParameters) (fileFilter : string) (i : nat) (g : FileIOFilter) :
  s_ioFilters w !! i = Some g →
  (fileFilter ≠ ""%string →
   registry_unique (s_ioFilters w) →
   fileFilter ∈ importFilters g →
     LoadFromFile_by_name filename loadParameters fileFilter w
     = LoadFromFile filename loadParameters (Some g) w) ∧
  (fileFilter = ""%string →
   suffix (QFileInfo_ filename) ≠ ""%string →
   canLoadExtension g (QString.toUpper (suffix (QFileInfo_ filename))) = true →
   (∀ j h, s_ioFilters w !! j = Some h → (j < i)%nat →
           canLoadExtension h (QString.toUpper (suffix (QFileInfo_ filename))) = false) →
     LoadFromFile_by_name filename loadParameters fileFilter w
     = LoadFromFile filename loadParameters (Some g) w).
Proof.
  intros Hi. unfold LoadFromFile_by_name. split.
  - intros Hne Huniq Hin. apply isEmpty_false in Hne as Hempty. rewrite Hempty. cbn [negb].
    rewrite bind_run, GetFilter_run, Hempty. cbn [fst snd negb].
    by rewrite (GetFilter_loop_unique _ i g fileFilter Huniq Hi Hin).
  - intros -> Hsuffix Hg Hbefore. cbn [QString.isEmpty negb].
    apply isEmpty_false in Hsuffix as ->.
    rewrite bind_run, FindBestFilterForExtension_run. cbn [fst snd].
    by rewrite (FindBestFilterForExtension_loop_first _ i g _ Hi Hg Hbefore).
Qed.

End LoadByName.

(** ** Saving *)

Section SaveProperties.

Context `{Collaborators}.

(** X16.  SaveToFile with a null entity, an empty file name or a null
    filter returns CC_FERR_BAD_ARGUMENT and does nothing else: no filter is
    called and, unlike for the other failures, nothing is written to the
    log. *)
Theorem SaveToFile_bad_argument (w : World) (entities : option ccHObject)
    (filename : string) (parameters : SaveParameters) (filter : Shared) :
  entities = None ∨ filename = ""%string ∨ filter = None →
  SaveToFile entities filename parameters filter w = (CC_FERR_BAD_ARGUMENT, w).
Proof.
  intros [-> | [-> | ->]]; unfold SaveToFile.
  - done.
  - by destruct entities, filter.
  - by destruct entities.
Qed.


(** X19.  SaveToFile by file filter string.  An empty string gives
    CC_FERR_BAD_ARGUMENT and nothing else happens.  A string that no
    registered filter lists for export gives CC_FERR_UNKNOWN_FILE, whatever
    the other arguments (a null entity too), with one error line and no
    call of a filter; import lists are not looked at.  Otherwise the call
    does what SaveToFile does with the first registered filter that lists
    the string for export. *)
Theorem SaveToFile_by_name_resolution (w : World) (entities : option ccHObject)
    (filename : string) (parameters : SaveParameters) (fileFilter : string) :
  (fileFilter = ""%string →
     SaveToFile_by_name entities filename parameters fileFilter w
     = (CC_FERR_BAD_ARGUMENT, w)) ∧
  (fileFilter ≠ ""%string →
   Forall (λ g, fileFilter ∉ getFileFilters g false) (s_ioFilters w) →
     SaveToFile_by_name entities filename parameters fileFilter w
     = (CC_FERR_UNKNOWN_FILE,
        {| s_ioFilters := s_ioFilters w;
           s_sessionCounter := s_sessionCounter w;
           trace := trace w ++
             [ccLog_Error ("[Load] Internal error: no filter corresponds to filter '"
                           +:+ fileFilter +:+ "'")] |})) ∧
  (∀ i g, fileFilter ≠ ""%string →
     s_ioFilters w !! i = Some g →
     fileFilter ∈ getFileFilters g false →
     (∀ j h, s_ioFilters w !! j = Some h → (j < i)%nat →
             fileFilter ∉ getFileFilters h false) →
     SaveToFile_by_name entities filename parameters fileFilter w
     = SaveToFile entities filename parameters (Some g) w).
Proof.
  unfold SaveToFile_by_name. split_and!.
  - by intros ->.
  - intros Hne Hnone. apply isEmpty_false in Hne as Hempty. rewrite Hempty.
    rewrite bind_run, GetFilter_run, Hempty. cbn [fst snd negb].
    assert (GetFilter_loop fileFilter false (s_ioFilters w) = None) as ->.
    { apply GetFilter_loop_None. by apply Forall_forall. }
    done.
  - intros i g Hne Hi Hin Hbefore. apply isEmpty_false in Hne as Hempty. rewrite Hempty.
    rewrite bind_run, GetFilter_run, Hempty. cbn [fst snd negb].
    assert (GetFilter_loop fileFilter false (s_ioFilters w) = Some g) as ->; [|done].
    rewrite GetFilter_loop_list_find.
    assert (list_find (λ h, fileFilter ∈ getFileFilters h false) (s_ioFilters w)
            = Some (i, g)) as ->; [|done].
    apply list_find_Some. eauto.
Qed.

End SaveProperties.

(** ** Global shift: what a call can and cannot change *)

Section MoreShiftProperties.

Context `{Collaborators}.

(** HandleGlobalShift in all cases, as one equation on its result. *)
Lemma HandleGlobalShift_result (w : World) (P Pshift : CCVector3d)
    (preserveCoordinateShift : bool) (loadParameters : LoadParameters)
    (useInputCoordinatesShiftIfPossible : bool) :
  let r := ccGlobalShiftManager_Handle
             (HandleGlobalShift_args P Pshift preserveCoordinateShift loadParameters
                useInputCoordinatesShiftIfPossible) in
  let res := HandleGlobalShift P Pshift preserveCoordinateShift loadParameters
               useInputCoordinatesShiftIfPossible w in
  s_ioFilters res.2 = s_ioFilters w ∧
  s_sessionCounter res.2 = s_sessionCounter w ∧
  res.1 = if sizeof_PointCoordinateType <? 8
          then {| sr_return := r_handled r;
                  sr_Pshift := r_coordinatesShift r;
                  sr_preserveCoordinateShift := r_preserveCoordinateShift r;
                  sr_parameters :=
                    if r_handled r
                    then HandleGlobalShift_save (r_applyAll r) (r_coordinatesShift r)
                           (r_preserveCoordinateShift r) loadParameters
                    else loadParameters |}
          else {| sr_return := false;
                  sr_Pshift := HandleGlobalShift_Pshift Pshift loadParameters;
                  sr_preserveCoordinateShift :=
                    HandleGlobalShift_preserve preserveCoordinateShift loadParameters;
                  sr_parameters := loadParameters |}.
Proof.
  intros r res. subst res.
  destruct (sizeof_PointCoordinateType <? 8) eqn:Hsize.
  - apply Z.ltb_lt in Hsize. by rewrite HandleGlobalShift_narrow.
  - apply Z.ltb_ge in Hsize. by rewrite HandleGlobalShift_full.
Qed.

(** X20.  What HandleGlobalShift leaves alone, whatever Handle answers: the
    registry, the session counter, the shift handling mode and the
    sessionStart flag; a null pointer in the parameters stays null and a
    set one stays set; and a shift that was active is still active (the
    function never clears the enabled flag). *)
Theorem HandleGlobalShift_frame (w : World) (P Pshift : CCVector3d)
    (preserveCoordinateShift : bool) (loadParameters : LoadParameters)
    (useInputCoordinatesShiftIfPossible : bool) :
  let res := HandleGlobalShift P Pshift preserveCoordinateShift loadParameters
               useInputCoordinatesShiftIfPossible w in
  let after := sr_parameters res.1 in
  s_ioFilters res.2 = s_ioFilters w ∧
  s_sessionCounter res.2 = s_sessionCounter w ∧
  shiftHandlingMode after = shiftHandlingMode loadParameters ∧
  sessionStart after = sessionStart loadParameters ∧
  (coordinatesShiftEnabled after = None ↔ coordinatesShiftEnabled loadParameters = None) ∧
  (coordinatesShift after = None ↔ coordinatesShift loadParameters = None) ∧
  (shiftAlreadyEnabled loadParameters = true → shiftAlreadyEnabled after = true).
Proof.
  intros res after. subst after.
  destruct (HandleGlobalShift_result w P Pshift preserveCoordinateShift loadParameters
              useInputCoordinatesShiftIfPossible) as (Hreg & Hcount & Hres).
  fold res in Hreg, Hcount, Hres. rewrite Hres. split; [done|]. split; [done|].
  destruct (sizeof_PointCoordinateType <? 8); cbn [sr_parameters]; [|done].
  destruct (r_handled _); [|done]. unfold HandleGlobalShift_save, shiftAlreadyEnabled.
  destruct (r_applyAll _); [|done].
  destruct (coordinatesShiftEnabled loadParameters) as [en|] eqn:Hen,
           (coordinatesShift loadParameters) as [sh|] eqn:Hsh;
    cbn; rewrite ?Hen, ?Hsh; done.
Qed.

(** X21.  HandleGlobalShift returns what Handle returns when the coordinate
    type is narrower than a double, and false otherwise.  The parameters
    change only if the type is narrower, Handle returned true with the
    apply-all flag set, and both pointers are set; in every other case,
    also when Handle declines after having written to the shift it was
    offered, they are left exactly as they were. *)
Theorem HandleGlobalShift_changes_parameters_only_on_apply_all (w : World)
    (P Pshift : CCVector3d) (preserveCoordinateShift : bool)
    (loadParameters : LoadParameters) (useInputCoordinatesShiftIfPossible : bool) :
  let r := ccGlobalShiftManager_Handle
             (HandleGlobalShift_args P Pshift preserveCoordinateShift loadParameters
                useInputCoordinatesShiftIfPossible) in
  let res := HandleGlobalShift P Pshift preserveCoordinateShift loadParameters
               useInputCoordinatesShiftIfPossible w in
  sr_return res.1 = (sizeof_PointCoordinateType <? 8) && r_handled r ∧
  (sr_parameters res.1 ≠ loadParameters →
     sizeof_PointCoordinateType < 8 ∧
     r_handled r = true ∧
     r_applyAll r = true ∧
     is_Some (coordinatesShiftEnabled loadParameters) ∧
     is_Some (coordinatesShift loadParameters)) ∧
  (sizeof_PointCoordinateType < 8 → r_handled r = false →
     sr_parameters res.1 = loadParameters ∧
     sr_Pshift res.1 = r_coordinatesShift r ∧
     sr_preserveCoordinateShift res.1 = r_preserveCoordinateShift r).
Proof.
  intros r res.
  destruct (HandleGlobalShift_result w P Pshift preserveCoordinateShift loadParameters
              useInputCoordinatesShiftIfPossible) as (_ & _ & Hres).
  fold r res in Hres. rewrite Hres. split_and!.
  - by destruct (sizeof_PointCoordinateType <? 8).
  - destruct (sizeof_PointCoordinateType <? 8) eqn:Hsize; cbn [sr_parameters]; [|done].
    apply Z.ltb_lt in Hsize. destruct (r_handled r); [|done].
    unfold HandleGlobalShift_save. destruct (r_applyAll r); [|done].
    destruct (coordinatesShiftEnabled loadParameters), (coordinatesShift loadParameters);
      done.
  - intros Hsize%Z.ltb_lt Hdeclined. by rewrite Hsize, Hdeclined.
Qed.

(** X22.  What is saved is what is reported, and it is what the next call
    starts from.  When the type is narrower, Handle returns true with the
    apply-all flag and both pointers are set, the parameters afterwards
    hold the enabled flag true, the very shift and preserve flag handed to
    the caller, and a shift is active.  Any later call made with these
    parameters offers Handle that shift and that flag with the reuse
    preference set, whatever shift, flag and preference its own caller
    passes, and where the type has full precision it reports them itself. *)
Theorem HandleGlobalShift_saves_what_it_reports (w : World) (P Pshift : CCVector3d)
    (preserveCoordinateShift : bool) (loadParameters : LoadParameters)
    (useInputCoordinatesShiftIfPossible : bool) :
  sizeof_PointCoordinateType < 8 →
  is_Some (coordinatesShiftEnabled loadParameters) →
  is_Some (coordinatesShift loadParameters) →
  let r := ccGlobalShiftManager_Handle
             (HandleGlobalShift_args P Pshift preserveCoordinateShift loadParameters
                useInputCoordinatesShiftIfPossible) in
  r_handled r = true →
  r_applyAll r = true →
  let res := HandleGlobalShift P Pshift preserveCoordinateShift loadParameters
               useInputCoordinatesShiftIfPossible w in
  let saved := sr_parameters res.1 in
  coordinatesShiftEnabled saved = Some true ∧
  coordinatesShift saved = Some (sr_Pshift res.1) ∧
  preserveShiftOnSave saved = sr_preserveCoordinateShift res.1 ∧
  shiftAlreadyEnabled saved = true ∧
  ∀ P' Pshift' preserve' use',
    HandleGlobalShift_args P' Pshift' preserve' saved use'
    = {| h_P := P';
         h_diagonal := 0;
         h_mode := shiftHandlingMode loadParameters;
         h_useInputCoordinatesShiftIfPossible := true;
         h_coordinatesShift := sr_Pshift res.1;
         h_preserveCoordinateShift := sr_preserveCoordinateShift res.1;
         h_applyAll := false |}.
Proof.
  intros Hsize [en Hen] [sh Hsh] r Hhandled HapplyAll res saved. subst saved res.
  rewrite HandleGlobalShift_narrow by done. fold r. rewrite Hhandled, HapplyAll.
  cbn [fst sr_parameters sr_Pshift sr_preserveCoordinateShift].
  unfold HandleGlobalShift_save. rewrite Hen, Hsh. done.
Qed.

End MoreShiftProperties.

(** ** The further properties at inputs that meet their hypotheses *)

Lemma Register_loop_false_accepts (w : World) (f : FileIOFilter) :
  (Register_loop f (s_ioFilters w) w).1 = false →
  ¬ Register_refused (s_ioFilters w) (Some f).
Proof.
  intros Hloop Href%refused_iff_collides.
  destruct (Register_loop_spec f (s_ioFilters w) w) as (_ & _ & Hb).
  apply Hb in Href. congruence.
Defined.

Lemma GetFilter_first_registered_witness :
  (GetFilter "XYZ cloud (*.xyz)" true Fixtures.three_filters).1 = Some Fixtures.xyzFilter.
Proof.
  apply (proj1 (proj2 (GetFilter_first_registered Fixtures.three_filters
                         "XYZ cloud (*.xyz)" true))).
  split; [discriminate|]. exists 2%nat. split_and!.
  - reflexivity.
  - apply contains_elem_of. reflexivity.
  - intros j g Hj Hlt. destruct j as [|[|j]]; [| |lia]; injection Hj as <-;
      apply contains_false; reflexivity.
Defined.

Lemma Register_then_GetFilter_witness :
  (GetFilter "XYZ cloud (*.xyz)" true
     (Register (Some Fixtures.xyzFilter) Fixtures.two_filters).2).1
  = Some Fixtures.xyzFilter.
Proof.
  apply Register_then_GetFilter.
  - apply Register_loop_false_accepts. reflexivity.
  - apply contains_elem_of. reflexivity.
  - discriminate.
Defined.

Lemma GetFilter_import_unambiguous_witness :
  registry_unique (s_ioFilters Fixtures.three_filters) ∧
  (GetFilter "ASCII cloud (*.txt *.asc *.neu *.xyz *.pts *.csv)" true
     Fixtures.three_filters).1
  = Some Fixtures.asciiFilter.
Proof.
  assert (registry_unique (s_ioFilters Fixtures.three_filters)) as Huniq
    by (apply registry_uniqueb_sound; reflexivity).
  split; [exact Huniq|].
  apply (GetFilter_import_unambiguous Fixtures.three_filters 1 Fixtures.asciiFilter).
  - exact Huniq.
  - reflexivity.
  - apply contains_elem_of. reflexivity.
  - discriminate.
Defined.

Lemma Register_keeps_resolution_witness :
  (FindBestFilterForExtension "xyz"
     (Register (Some Fixtures.xyzFilter) Fixtures.two_filters).2).1
  = Some Fixtures.asciiFilter.
Proof.
  apply (proj1 (Register_keeps_resolution Fixtures.two_filters (Some Fixtures.xyzFilter)
                  Fixtures.asciiFilter)).
  reflexivity.
Defined.

Lemma InitInternalFilters_registers_in_order_witness :
  this <$> s_ioFilters (InitInternalFilters MoreFixtures.plain_build initial_World).2
  = [1; 2; 8; 9; 10]%nat.
Proof.
  rewrite (proj1 (InitInternalFilters_registers_in_order MoreFixtures.plain_build
                    initial_World)).
  - reflexivity.
  - apply registry_uniqueb_sound. reflexivity.
Defined.

Lemma registry_calls_keep_unique_witness :
  registry_unique
    (s_ioFilters
       (registry_calls [do_Register (Some Fixtures.binFilter);
                        do_Register (Some Fixtures.asciiRival);
                        do_Register (Some Fixtures.asciiFilter);
                        do_UnregisterAll;
                        do_Register (Some Fixtures.asciiFilter)]
          initial_World).2).
Proof.
  apply registry_calls_keep_unique. apply registry_unique_nil.
Defined.

Lemma DisplayErrorMessage_one_line_witness :
  ∃ phrase,
    phrase ≠ ""%string ∧
    trace (DisplayErrorMessage CC_FERR_CANCELED_BY_USER "loading" "scan" initial_World).2
    = [ccLog_Warning ("An error occurred while loading 'scan': " +:+ phrase)].
Proof.
  apply (proj1 (proj2 (proj2 (proj2 (DisplayErrorMessage_one_line
           CC_FERR_CANCELED_BY_USER "loading" "scan" initial_World))))).
  discriminate.
Defined.

Lemma LoadFromFile_container_never_empty_witness :
  ∃ c, lr_container (@LoadFromFile Fixtures.float_build "/data/scan.asc"
                       Fixtures.fresh_parameters (Some Fixtures.asciiFilter)
                       Fixtures.two_filters).1 = Some c ∧
       ccHObject_.getChildrenNumber c ≠ 0%nat.
Proof.
  eexists. split; [reflexivity|].
  apply (proj1 (@LoadFromFile_container_never_empty Fixtures.float_build
                  Fixtures.two_filters "/data/scan.asc" Fixtures.fresh_parameters
                  (Some Fixtures.asciiFilter))).
  reflexivity.
Defined.

Lemma LoadFromFile_reports_once_witness :
  let res := @LoadFromFile Fixtures.float_build "/data/scan.asc" Fixtures.fresh_parameters
               (Some MoreFixtures.failingFilter) Fixtures.two_filters in
  lr_result res.1 = CC_FERR_MALFORMED_FILE ∧
  trace res.2
  = [call_loadFile 11 "/data/scan.asc" (set_sessionStart true Fixtures.fresh_parameters);
     ccLog_Error "An error occurred while loading 'scan': malformed file"] ∧
  ∃ c, lr_container res.1 = Some c ∧
       ccHObject_.getChildren c = [HObject "scan - half" []].
Proof.
  destruct (@LoadFromFile_reports_once Fixtures.float_build Fixtures.two_filters
              "/data/scan.asc" Fixtures.fresh_parameters MoreFixtures.failingFilter
              CC_FERR_MALFORMED_FILE (HObject "unnamed" [HObject "unnamed - half" []])
              (set_sessionStart true Fixtures.fresh_parameters) eq_refl eq_refl)
    as (Htrace & _ & _ & Hresult & Hchildren).
  split_and!; [exact Hresult | exact Htrace | apply Hchildren; discriminate].
Defined.

Lemma LoadFromFile_all_counts_valid_calls_witness :
  let calls := [mkLoadCall "/data/scan.asc" Fixtures.fresh_parameters
                  (Some Fixtures.throwingFilter);
                mkLoadCall "/data/scan.asc" Fixtures.fresh_parameters None;
                mkLoadCall "/data/missing.asc" Fixtures.fresh_parameters
                  (Some Fixtures.asciiFilter);
                mkLoadCall "/data/tile.xyz" Fixtures.fresh_parameters
                  (Some Fixtures.asciiFilter)] in
  let res := @LoadFromFile_all Fixtures.float_build calls Fixtures.two_filters in
  s_sessionCounter res.2 = 2 ∧ length (loadFile_calls (trace res.2)) = 2%nat.
Proof.
  intros calls res.
  destruct (@LoadFromFile_all_counts_valid_calls Fixtures.float_build calls
              Fixtures.two_filters) as (_ & Hcount & Hcalls & _).
  - split; [discriminate | reflexivity].
  - split; [exact Hcount | exact Hcalls].
Defined.

Lemma LoadFromFile_by_name_unresolved_witness :
  let res := @LoadFromFile_by_name Fixtures.float_build "/data/scan.asc"
               Fixtures.fresh_parameters "Nope (*.nop)" Fixtures.two_filters in
  lr_result res.1 = CC_FERR_CONSOLE_ERROR ∧
  lr_container res.1 = None ∧
  s_sessionCounter res.2 = 0.
Proof.
  destruct (@LoadFromFile_by_name_unresolved Fixtures.float_build Fixtures.two_filters
              "/data/scan.asc" Fixtures.fresh_parameters "Nope (*.nop)")
    as (Hresult & Hcontainer & _ & Hcount & _).
  - left. split; [discriminate|].
    apply Forall_cons; split; [apply contains_false; reflexivity|].
    apply Forall_cons; split; [apply contains_false; reflexivity|].
    apply Forall_nil_2.
  - split_and!; [exact Hresult | exact Hcontainer | exact Hcount].
Defined.

Lemma LoadFromFile_by_name_dispatch_witness :
  @LoadFromFile_by_name Fixtures.float_build "/data/tile.xyz" Fixtures.fresh_parameters
    "" Fixtures.three_filters
  = @LoadFromFile Fixtures.float_build "/data/tile.xyz" Fixtures.fresh_parameters
      (Some Fixtures.asciiFilter) Fixtures.three_filters.
Proof.
  apply (proj2 (@LoadFromFile_by_name_dispatch Fixtures.float_build Fixtures.three_filters
                  "/data/tile.xyz" Fixtures.fresh_parameters "" 1 Fixtures.asciiFilter
                  eq_refl)).
  - reflexivity.
  - discriminate.
  - reflexivity.
  - intros j h Hj Hlt. destruct j as [|j]; [|lia]. injection Hj as <-. reflexivity.
Defined.

Lemma SaveToFile_bad_argument_witness :
  @SaveToFile Fixtures.float_build None "/data/out" mkSaveParameters
    (Some Fixtures.binFilter) Fixtures.two_filters
  = (CC_FERR_BAD_ARGUMENT, Fixtures.two_filters).
Proof.
  apply (@SaveToFile_bad_argument Fixtures.float_build). left. reflexivity.
Defined.


Lemma SaveToFile_by_name_resolution_witness :
  (@SaveToFile_by_name Fixtures.float_build None "/data/out" mkSaveParameters
     "Nope (*.nop)" Fixtures.two_filters).1
  = CC_FERR_UNKNOWN_FILE.
Proof.
  rewrite (proj1 (proj2 (@SaveToFile_by_name_resolution Fixtures.float_build
                           Fixtures.two_filters None "/data/out" mkSaveParameters
                           "Nope (*.nop)"))).
  - reflexivity.
  - discriminate.
  - apply Forall_cons; split; [apply contains_false; reflexivity|].
    apply Forall_cons; split; [apply contains_false; reflexivity|].
    apply Forall_nil_2.
Defined.

Lemma HandleGlobalShift_frame_witness :
  shiftAlreadyEnabled
    (sr_parameters
       (@HandleGlobalShift Fixtures.float_build_recentring Fixtures.P2 Fixtures.zero false
          Fixtures.shifted_parameters false Fixtures.two_filters).1)
  = true.
Proof.
  apply (@HandleGlobalShift_frame Fixtures.float_build_recentring Fixtures.two_filters
           Fixtures.P2 Fixtures.zero false Fixtures.shifted_parameters false).
  reflexivity.
Defined.

Lemma HandleGlobalShift_changes_parameters_only_on_apply_all_witness :
  let res := @HandleGlobalShift MoreFixtures.float_build_declining Fixtures.P2 Fixtures.P1
               true Fixtures.fresh_parameters false Fixtures.two_filters in
  sr_parameters res.1 = Fixtures.fresh_parameters ∧
  sr_Pshift res.1 = Fixtures.zero ∧
  sr_preserveCoordinateShift res.1 = false.
Proof.
  apply (@HandleGlobalShift_changes_parameters_only_on_apply_all
           MoreFixtures.float_build_declining Fixtures.two_filters Fixtures.P2 Fixtures.P1
           true Fixtures.fresh_parameters false); reflexivity.
Defined.

Lemma HandleGlobalShift_saves_what_it_reports_witness :
  let res := @HandleGlobalShift Fixtures.float_build_recentring Fixtures.P1 Fixtures.zero
               false Fixtures.fresh_parameters false Fixtures.two_filters in
  coordinatesShift (sr_parameters res.1) = Some Fixtures.P1 ∧
  h_coordinatesShift
    (HandleGlobalShift_args Fixtures.P2 Fixtures.zero false (sr_parameters res.1) false)
  = Fixtures.P1.
Proof.
  destruct (@HandleGlobalShift_saves_what_it_reports Fixtures.float_build_recentring
              Fixtures.two_filters Fixtures.P1 Fixtures.zero false
              Fixtures.fresh_parameters false eq_refl
              (ex_intro _ false eq_refl) (ex_intro _ Fixtures.zero eq_refl)
              eq_refl eq_refl)
    as (_ & Hshift & _ & _ & Hnext).
  split; [exact Hshift|].
  rewrite (Hnext Fixtures.P2 Fixtures.zero false false). reflexivity.
Defined.

(** ** What is logged when a filter throws *)

Section ExceptionLog.

Context `{Collaborators}.

(** X12.  A load whose filter throws writes, after the call of the filter:
    a warning naming the file; for a std::exception a second warning with
    the text of the exception; and the error line of CC_FERR_CONSOLE_ERROR
    with the base name of the file.  The session counter has advanced all
    the same, and the caller's parameters are as the filter left them when
    it threw. *)
Theorem LoadFromFile_logs_exception (w : World) (filename : string)
    (loadParameters : LoadParameters) (f : FileIOFilter) (e : Exception)
    (container : ccHObject) (loadParameters' : LoadParameters) :
  exists_ (QFileInfo_ filename) = true →
  filter_outcome w filename loadParameters f = (Throws e, container, loadParameters') →
  let res := LoadFromFile filename loadParameters (Some f) w in
  trace res.2
  = trace w
      ++ [call_loadFile (this f) filename (parameters_for_filter w loadParameters)]
      ++ match e with
         | std_exception what =>
             [ccLog_Warning ("[I/O] CC has caught an exception while loading file '"
                             +:+ filename +:+ "'");
              ccLog_Warning ("[I/O] Exception: " +:+ what)]
         | other_exception =>
             [ccLog_Warning ("[I/O] CC has caught an unhandled exception while loading file '"
                             +:+ filename +:+ "'")]
         end
      ++ [ccLog_Error ("An error occurred while loading '"
                       +:+ baseName (QFileInfo_ filename) +:+ "': see console")] ∧
  s_sessionCounter res.2 = (s_sessionCounter w + 1) mod UINT_MODULUS ∧
  lr_parameters res.1 = loadParameters'.
Proof.
  intros Hex Hout res. subst res. unfold filter_outcome, parameters_for_filter in *.
  unfold LoadFromFile. rewrite Hex. cbn [negb].
  unfold IncreaseSesionCounter, get_sessionCounter, set_sessionCounter.
  rewrite !bind_run. cbn [fst snd ret s_sessionCounter s_ioFilters trace].
  unfold LoadFromFile_try. rewrite !bind_run. cbn [emit fst snd].
  rewrite Hout. destruct e as [what|]; cbn; by rewrite <- !app_assoc.
Qed.

(** X18.  A save whose filter throws writes, after the call of the filter,
    one warning naming the file as the caller gave it and the error line of
    CC_FERR_CONSOLE_ERROR; the text of the exception is not logged,
    whatever the exception.  Registry and session counter are not
    touched. *)
Theorem SaveToFile_logs_exception (w : World) (entities : ccHObject)
    (filename : string) (parameters : SaveParameters) (f : FileIOFilter) (e : Exception) :
  filename ≠ ""%string →
  saveToFile f entities (SaveToFile_completeFileName filename f) parameters = Throws e →
  SaveToFile (Some entities) filename parameters (Some f) w
  = (CC_FERR_CONSOLE_ERROR,
     {| s_ioFilters := s_ioFilters w;
        s_sessionCounter := s_sessionCounter w;
        trace := trace w ++
          [call_saveToFile (this f) (SaveToFile_completeFileName filename f);
           ccLog_Warning ("[I/O] CC has caught an unhandled exception while saving file '"
                          +:+ filename +:+ "'");
           ccLog_Error ("An error occurred while saving '" +:+ filename
                        +:+ "': see console")] |}).
Proof.
  intros Hne Hout. unfold SaveToFile. apply isEmpty_false in Hne as ->.
  unfold SaveToFile_try. rewrite !bind_run. cbn [emit fst snd].
  rewrite Hout. cbn. by rewrite <- !app_assoc.
Qed.

End ExceptionLog.

Lemma LoadFromFile_logs_exception_witness :
  let res := @LoadFromFile Fixtures.float_build "/data/scan.asc" Fixtures.fresh_parameters
               (Some Fixtures.throwingFilter) Fixtures.two_filters in
  trace res.2
  = [call_loadFile 5 "/data/scan.asc" (set_sessionStart true Fixtures.fresh_parameters);
     ccLog_Warning "[I/O] CC has caught an exception while loading file '/data/scan.asc'";
     ccLog_Warning "[I/O] Exception: std::bad_alloc";
     ccLog_Error "An error occurred while loading 'scan': see console"] ∧
  s_sessionCounter res.2 = 1.
Proof.
  destruct (@LoadFromFile_logs_exception Fixtures.float_build Fixtures.two_filters
              "/data/scan.asc" Fixtures.fresh_parameters Fixtures.throwingFilter
              (std_exception "std::bad_alloc")
              (HObject "unnamed" [HObject "unnamed" []])
              (set_sessionStart true Fixtures.fresh_parameters) eq_refl eq_refl)
    as (Htrace & Hcount & _).
  split; [exact Htrace | exact Hcount].
Defined.

Lemma SaveToFile_logs_exception_witness :
  (@SaveToFile Fixtures.float_build (Some (Fixtures.leaf "cloud")) "/data/out"
     mkSaveParameters (Some Fixtures.throwingFilter) Fixtures.two_filters).1
  = CC_FERR_CONSOLE_ERROR.
Proof.
  rewrite (@SaveToFile_logs_exception Fixtures.float_build Fixtures.two_filters
             (Fixtures.leaf "cloud") "/data/out" mkSaveParameters Fixtures.throwingFilter
             other_exception).
  - reflexivity.
  - discriminate.
  - reflexivity.
Defined.
